(** * The HTTP service bootstrap of [lib/server.js]

    A shallow embedding of the two functions of [lib/server.js],
    [prettyPrintErrors] and the exported bootstrap function, and the
    properties of them that the specification states, followed by what the
    code shows beyond them: its behaviour on failures and at the edges, and
    what it leaves alone.

    The functions run in a state and exception monad over a JavaScript object
    store: objects, arrays, functions and promises are cells of the store and
    values refer to them, so that [server.app.buildFactory] and
    [config.buildFactory] are one object.  The collaborators of the module
    (Hapi, the plugin registrar, the auth and shutdown plugins, the domain
    factories, the logger) are an [environment]: it answers every call that
    leaves the module, by a value or an exception, and may change the store
    as it likes.  Every such call is recorded, with the store it was made in.

    A promise is a cell holding the state it settles to.  The event loop is
    not modelled: the store an asynchronous call hands back is the store at
    the time its promise has settled, and the continuation attached to the
    promise runs in that store.

    A function of a collaborator is an object of the store like any other;
    what a call of it does is the answer of the environment.

    Not modelled: prototype chains and accessors (a property read is a lookup
    in the object), thenables other than promises, numbers that are not
    integers. *)

From stdpp Require Import base strings gmap list.

Open Scope Z_scope.
Open Scope string_scope.
Open Scope list_scope.

(** ** Values and the object store *)

Abbreviation loc := positive.

(** JavaScript values.  Objects, arrays, functions and promises live in the
    store and are handled by reference, so that two names for one object see
    each other's writes.  Numbers are the integer-valued ones (status codes,
    expiry times); [VTypeError] is an error raised by the engine itself, which
    this module never inspects. *)
Inductive value :=
| VUndefined
| VNull
| VBool (b : bool)
| VNum (n : Z)
| VStr (s : string)
| VTypeError
| VRef (l : loc).

#[global] Instance value_eq_dec : EqDecision value.
Proof. solve_decision. Defined.

(** Settled state of a promise, as seen when its continuation runs. *)
Inductive pstate :=
| Pending
| Fulfilled (v : value)
| Rejected (e : value).

(** The function objects this module creates, with what each one captures. *)
Inductive closure :=
| PrettyPrintErrors                 (* function prettyPrintErrors, l.13 *)
| OnRegistered (server : value)     (* () => { ... }, l.132 *)
| TokenGenBuild (server : value)    (* buildFactory.tokenGen, l.136 *)
| TokenGenJob (server : value)      (* jobFactory.tokenGen, l.143 *)
| CleanupTask (server : value)      (* task: () => new Promise(...), l.151 *)
| ReturnServer (server : value)     (* () => server, l.161 *)
| LogStartFailure.                  (* err => logger.error(...), l.162 *)

Inductive kind :=
| KPlain
| KArray (elems : list value)
| KFun (c : closure)
| KPromise (st : pstate).

Record obj := Obj { okind : kind; props : gmap string value }.

Abbreviation heap := (gmap loc obj).

(** ** Outgoing calls

    Every call that leaves the module is recorded with the store it was made
    in, which is what a mock of the collaborator would observe. *)
Inductive callee :=
| Method (this : value) (name : string)   (* this.name(...) *)
| Fn (f : value)                          (* f(...) on a function received as an argument *)
| Import (module name : string)           (* a required module's function; the module itself when the name is empty *)
| Construct (module name : string).       (* new on a class of a required module *)

Record event := Event { ev_callee : callee; ev_args : list value; ev_heap : heap }.

Inductive result (A : Type) :=
| Ok (a : A)
| Throw (e : value).
Arguments Ok {A} a.
Arguments Throw {A} e.

(** The collaborators: given the history of calls (the last one being the call
    to answer), the environment returns or throws, and hands back the store as
    it left it.  For a call that returns a promise, the returned store is the
    one in which that promise has settled. *)
Definition environment := list event → result value * heap.

Record state := State { st_heap : heap; st_trace : list event }.

Definition M (A : Type) := state → result A * state.

Definition ret {A} (a : A) : M A := fun σ => (Ok a, σ).

Definition throw {A} (e : value) : M A := fun σ => (Throw e, σ).

Definition bind {A B} (m : M A) (k : A → M B) : M B := fun σ =>
  match m σ with
  | (Ok a, σ') => k a σ'
  | (Throw e, σ') => (Throw e, σ')
  end.

Notation "'let!' x ':=' m 'in' k" := (bind m (fun x => k))
  (at level 10, x name, m at level 100, k at level 200).
Notation "m ';;' k" := (bind m (fun _ => k))
  (at level 100, k at level 200, right associativity).

(** ** Store primitives *)

(** Property read [v.k]: a TypeError on [undefined] and [null]; [undefined] on
    the other primitives (no key this module reads is a built-in property of a
    primitive) and on an object without the key. *)
Definition lookup_prop (h : heap) (v : value) (k : string) : option value :=
  match v with
  | VUndefined | VNull => None
  | VRef l => match h !! l with
              | Some o => Some (default VUndefined (props o !! k))
              | None => None
              end
  | _ => Some VUndefined
  end.

Definition get_prop (v : value) (k : string) : M value := fun σ =>
  match lookup_prop (st_heap σ) v k with
  | Some x => (Ok x, σ)
  | None => (Throw VTypeError, σ)
  end.

(** Property write [v.k = x]; the file is in strict mode, so a write to a
    primitive throws as a write to [undefined] does. *)
Definition store_prop (h : heap) (v : value) (k : string) (x : value) : option heap :=
  match v with
  | VRef l => match h !! l with
              | Some o => Some (<[l := Obj (okind o) (<[k := x]> (props o))]> h)
              | None => None
              end
  | _ => None
  end.

Definition set_prop (v : value) (k : string) (x : value) : M unit := fun σ =>
  match store_prop (st_heap σ) v k x with
  | Some h' => (Ok tt, State h' (st_trace σ))
  | None => (Throw VTypeError, σ)
  end.

(** A location no object of the store occupies. *)
Definition fresh_loc (h : heap) : loc :=
  Pos.succ (foldr Pos.max 1%positive (map fst (map_to_list h))).

Definition alloc (o : obj) : M value := fun σ =>
  let l := fresh_loc (st_heap σ) in
  (Ok (VRef l), State (<[l := o]> (st_heap σ)) (st_trace σ)).

(** Object, array and function literals. *)
Definition new_object (fields : list (string * value)) : M value :=
  alloc (Obj KPlain (list_to_map fields)).

Definition new_array (elems : list value) : M value :=
  alloc (Obj (KArray elems) ∅).

Definition new_closure (c : closure) : M value :=
  alloc (Obj (KFun c) ∅).

Definition new_promise (st : pstate) : M value :=
  alloc (Obj (KPromise st) ∅).

Definition array_elems (h : heap) (v : value) : option (list value) :=
  match v with
  | VRef l => match h !! l with
              | Some (Obj (KArray es) _) => Some es
              | _ => None
              end
  | _ => None
  end.

Definition promise_state (h : heap) (v : value) : option pstate :=
  match v with
  | VRef l => match h !! l with
              | Some (Obj (KPromise st) _) => Some st
              | _ => None
              end
  | _ => None
  end.

Definition closure_at (h : heap) (v : value) : option closure :=
  match v with
  | VRef l => match h !! l with
              | Some (Obj (KFun c) _) => Some c
              | _ => None
              end
  | _ => None
  end.

(** [Array.isArray(v)] *)
Definition is_array (h : heap) (v : value) : bool :=
  bool_decide (is_Some (array_elems h v)).

Definition Array_isArray (v : value) : M bool := fun σ =>
  (Ok (is_array (st_heap σ) v), σ).

(** Whether [v] can be called.  A function is an object of the store, one of
    the module's own or a collaborator's; a primitive, an array and a promise
    are none. *)
Definition callable (h : heap) (v : value) : bool :=
  match v with
  | VRef l => match h !! l with
              | Some (Obj KPlain _) | Some (Obj (KFun _) _) => true
              | _ => false
              end
  | _ => false
  end.

Definition is_callable (v : value) : M bool := fun σ =>
  (Ok (callable (st_heap σ) v), σ).

(** [a.concat(x)] on an array [a]: a new array with the elements of [a]
    followed by those of [x] when [x] is an array, by [x] itself otherwise. *)
Definition Array_concat (a x : value) : M value := fun σ =>
  match array_elems (st_heap σ) a with
  | Some es =>
      new_array (es ++ match array_elems (st_heap σ) x with
                       | Some xs => xs
                       | None => [x]
                       end) σ
  | None => (Throw VTypeError, σ)
  end.

(** JavaScript truthiness, [ToBoolean]. *)
Definition to_boolean (v : value) : bool :=
  match v with
  | VUndefined | VNull => false
  | VBool b => b
  | VNum n => negb (Z.eqb n 0)
  | VStr s => negb (String.eqb s "")
  | VTypeError | VRef _ => true
  end.

(** Strict equality [===]; references are equal when they are one object. *)
Definition strict_eq (a b : value) : bool := bool_decide (a = b).

(** [a || b] on values already evaluated (both operands here are plain
    reads). *)
Definition or_else (a b : value) : value := if to_boolean a then a else b.

(** [v.k1.k2...kn] *)
Fixpoint lookup_path (h : heap) (v : value) (ks : list string) : option value :=
  match ks with
  | [] => Some v
  | k :: ks' => match lookup_prop h v k with
                | Some x => lookup_path h x ks'
                | None => None
                end
  end.

Fixpoint get_path (v : value) (ks : list string) : M value :=
  match ks with
  | [] => ret v
  | k :: ks' => let! x := get_prop v k in get_path x ks'
  end.

(** The object literal [{ k1: v.k1, ..., kn: v.kn }], read in order. *)
Fixpoint read_fields (v : value) (ks : list string) : M (list (string * value)) :=
  match ks with
  | [] => ret []
  | k :: ks' =>
      let! x := get_prop v k in
      let! rest := read_fields v ks' in
      ret ((k, x) :: rest)
  end.

(** Reading a method off [undefined] or [null] throws before the call. *)
Definition require_object_coercible (v : value) : M unit :=
  match v with
  | VUndefined | VNull => throw VTypeError
  | _ => ret tt
  end.

(** What [await v], or resolving a promise with [v], settles to. *)
Definition settled (h : heap) (v : value) : pstate :=
  match promise_state h v with
  | Some st => st
  | None => Fulfilled v
  end.

Definition is_call (c : callee) (e : event) : bool :=
  match c, ev_callee e with
  | Method t n, Method t' n' => bool_decide (t = t') && String.eqb n n'
  | Fn f, Fn f' => bool_decide (f = f')
  | Import m n, Import m' n' => String.eqb m m' && String.eqb n n'
  | Construct m n, Construct m' n' => String.eqb m m' && String.eqb n n'
  | _, _ => false
  end.

(** A call of the method [name], on whatever receiver. *)
Definition is_method_call (name : string) (e : event) : bool :=
  match ev_callee e with
  | Method _ n => String.eqb n name
  | _ => false
  end.

(** The keys the bootstrap copies from the configuration into [server.app],
    in source order (l.103-119). *)
Definition app_keys : list string :=
  [ "commandFactory"; "commandTagFactory"; "templateFactory";
    "templateTagFactory"; "triggerFactory"; "pipelineFactory"; "jobFactory";
    "userFactory"; "buildFactory"; "stepFactory"; "bannerFactory";
    "secretFactory"; "tokenFactory"; "eventFactory"; "collectionFactory";
    "buildClusterFactory"; "ecosystem" ].

(** ** The module *)

Section Server.

(** The collaborators, and the function object of [prettyPrintErrors], which
    exists once the module is loaded. *)
Variable env : environment.
Variable prettyPrintErrors_fn : value.

(** A call that leaves the module. *)
Definition ext (c : callee) (args : list value) : M value := fun σ =>
  let tr := st_trace σ ++ [Event c args (st_heap σ)] in
  let '(r, h) := env tr in
  (r, State h tr).

Definition call_method (this : value) (name : string) (args : list value) : M value :=
  require_object_coercible this ;;
  ext (Method this name) args.

(** [p.then(cb)]: on a promise, the continuation [body] runs once the promise
    is fulfilled and the derived promise settles to its outcome; a rejection
    passes through.  A callback handed to a promise is run by the promise and
    seen by nobody else, so no function object is allocated for it.  On
    anything else than a promise the call is the receiver's own, and it
    receives the function object. *)
Definition promise_then (p : value) (c : closure) (body : value → M value) : M value :=
  require_object_coercible p ;;
  fun σ =>
    match promise_state (st_heap σ) p with
    | Some (Fulfilled v) =>
        match body v σ with
        | (Ok r, σ') => new_promise (settled (st_heap σ') r) σ'
        | (Throw e, σ') => new_promise (Rejected e) σ'
        end
    | Some (Rejected e) => new_promise (Rejected e) σ
    | Some Pending => new_promise Pending σ
    | None => (let! cb := new_closure c in ext (Method p "then") [cb]) σ
    end.

(** [p.catch(cb)] *)
Definition promise_catch (p : value) (c : closure) (body : value → M value) : M value :=
  require_object_coercible p ;;
  fun σ =>
    match promise_state (st_heap σ) p with
    | Some (Rejected e) =>
        match body e σ with
        | (Ok r, σ') => new_promise (settled (st_heap σ') r) σ'
        | (Throw e', σ') => new_promise (Rejected e') σ'
        end
    | Some (Fulfilled v) => new_promise (Fulfilled v) σ
    | Some Pending => new_promise Pending σ
    | None => (let! cb := new_closure c in ext (Method p "catch") [cb]) σ
    end.

(** *** prettyPrintErrors (l.13-39) *)

Definition prettyPrintErrors (request reply : value) : M value :=
  let! response := get_prop request "response" in
  let! isBoom := get_prop response "isBoom" in
  if to_boolean isBoom then
    let! err := get_prop request "response" in
    let! errName := get_path err ["output"; "payload"; "error"] in
    let! errMessage := get_prop err "message" in
    let! statusCode := get_path err ["output"; "payload"; "statusCode"] in
    let! stack0 := get_prop err "stack" in
    let stack := or_else stack0 errMessage in
    (if strict_eq statusCode (VNum 500) then
       require_object_coercible request ;;
       let! tags := new_array [VStr "server"; VStr "error"] in
       ext (Method request "log") [tags; stack] ;;
       ret tt
     else ret tt) ;;
    let! response := new_object [("statusCode", statusCode);
                                 ("error", errName);
                                 ("message", errMessage)] in
    let! data := get_prop err "data" in
    (if to_boolean data then
       let! data' := get_prop err "data" in
       set_prop response "data" data'
     else ret tt) ;;
    let! r := ext (Fn reply) [response] in
    call_method r "code" [statusCode]
  else
    call_method reply "continue" [].

(** *** The bootstrap (l.70-164) *)

(** The allowed origins (l.74-78). *)
Definition corsOrigins (config : value) : M value :=
  let! ui := get_path config ["ecosystem"; "ui"] in
  let! corsOrigins := new_array [ui] in
  let! allowCors := get_path config ["ecosystem"; "allowCors"] in
  let! isArr := Array_isArray allowCors in
  if isArr then
    let! allowCors' := get_path config ["ecosystem"; "allowCors"] in
    Array_concat corsOrigins allowCors'
  else ret corsOrigins.

(** The CORS policy (l.74-86). *)
Definition cors (config : value) : M value :=
  let! corsOrigins := corsOrigins config in
  let! exposed := new_array [VStr "x-more-data"] in
  new_object [("origin", corsOrigins);
              ("additionalExposedHeaders", exposed);
              ("credentials", VBool true)].

(** The server, its application namespace, hook and event (l.88-128). *)
Definition configure (config : value) : M value :=
  let! cors := cors config in
  let! routes := new_object [("cors", cors); ("log", VBool true)] in
  let! router := new_object [("stripTrailingSlash", VBool true)] in
  let! connections := new_object [("routes", routes); ("router", router)] in
  let! options := new_object [("connections", connections)] in
  let! server := ext (Construct "hapi" "Server") [options] in
  let! fields := read_fields config app_keys in
  let! app := new_object fields in
  set_prop server "app" app ;;
  require_object_coercible server ;;
  let! httpd := get_prop config "httpd" in
  ext (Method server "connection") [httpd] ;;
  call_method server "ext" [VStr "onPreResponse"; prettyPrintErrors_fn] ;;
  call_method server "event" [VStr "build_status"] ;;
  ret server.

(** [buildFactory.tokenGen] (l.136-139) *)
Definition tokenGenBuild (server buildId metadata scmContext expiresIn : value) : M value :=
  let! auth := get_path server ["plugins"; "auth"] in
  require_object_coercible auth ;;
  let! auth' := get_path server ["plugins"; "auth"] in
  require_object_coercible auth' ;;
  let! scopes := new_array [VStr "temporal"] in
  let! profile := ext (Method auth' "generateProfile")
                      [buildId; scmContext; scopes; metadata] in
  ext (Method auth "generateToken") [profile; expiresIn].

(** [jobFactory.tokenGen] (l.143-146) *)
Definition tokenGenJob (server username metadata scmContext : value) : M value :=
  let! auth := get_path server ["plugins"; "auth"] in
  require_object_coercible auth ;;
  let! auth' := get_path server ["plugins"; "auth"] in
  require_object_coercible auth' ;;
  let! scopes := new_array [VStr "user"] in
  let! profile := ext (Method auth' "generateProfile")
                      [username; scmContext; scopes; metadata] in
  ext (Method auth "generateToken") [profile].

(** The executor of the clean-up promise (l.151-155), an async function: it
    runs up to the [await]; whatever it throws, or a rejected [cleanUp], ends
    it without [resolve] being called. *)
Definition cleanupExecutor (server : value) : M pstate := fun σ =>
  match (let! jobFactory := get_path server ["app"; "jobFactory"] in
         call_method jobFactory "cleanUp" []) σ with
  | (Ok r, σ1) =>
      match settled (st_heap σ1) r with
      | Fulfilled _ =>
          match ext (Import "screwdriver-logger" "info")
                    [VStr "completed clean up tasks"] σ1 with
          | (Ok _, σ2) => (Ok (Fulfilled VUndefined), σ2)
          | (Throw _, σ2) => (Ok Pending, σ2)
          end
      | _ => (Ok Pending, σ1)
      end
  | (Throw _, σ1) => (Ok Pending, σ1)
  end.

(** The shutdown task (l.151): [new Promise(executor)]. *)
Definition cleanupTask (server : value) : M value :=
  let! st := cleanupExecutor server in
  new_promise st.

(** Build-domain wiring (l.135-140). *)
Definition wire_build (server : value) : M unit :=
  let! buildFactory := get_path server ["app"; "buildFactory"] in
  let! uri := get_path server ["info"; "uri"] in
  set_prop buildFactory "apiUri" uri ;;
  let! buildFactory := get_path server ["app"; "buildFactory"] in
  let! tokenGen := new_closure (TokenGenBuild server) in
  set_prop buildFactory "tokenGen" tokenGen ;;
  let! executor := get_path server ["app"; "buildFactory"; "executor"] in
  let! tokenGen := get_path server ["app"; "buildFactory"; "tokenGen"] in
  set_prop executor "tokenGen" tokenGen.

(** Job-domain wiring (l.142-147). *)
Definition wire_job (server : value) : M unit :=
  let! jobFactory := get_path server ["app"; "jobFactory"] in
  let! uri := get_path server ["info"; "uri"] in
  set_prop jobFactory "apiUri" uri ;;
  let! jobFactory := get_path server ["app"; "jobFactory"] in
  let! tokenGen := new_closure (TokenGenJob server) in
  set_prop jobFactory "tokenGen" tokenGen ;;
  let! executor := get_path server ["app"; "jobFactory"; "executor"] in
  let! tokenGen := get_path server ["app"; "jobFactory"; "tokenGen"] in
  set_prop executor "userTokenGen" tokenGen.

(** The shutdown task registration (l.148-157).  [handler] is read off the
    shutdown capability before the argument is built; the call throws a
    TypeError, once the argument is there, when what was read is no
    function. *)
Definition register_shutdown (server : value) : M unit :=
  let! shutdown := get_path server ["plugins"; "shutdown"] in
  if to_boolean shutdown then
    let! shutdown' := get_path server ["plugins"; "shutdown"] in
    let! handler := get_prop shutdown' "handler" in
    let! is_function := is_callable handler in
    let! task := new_closure (CleanupTask server) in
    let! arg := new_object [("taskname", VStr "executor-queue-cleanup");
                            ("task", task)] in
    if is_function then
      ext (Method shutdown' "handler") [arg] ;;
      ret tt
    else throw VTypeError
  else ret tt.

(** Starting the listener and reporting (l.160-162). *)
Definition start_and_report (server : value) : M value :=
  let! started := call_method server "start" [] in
  let! running := promise_then started (ReturnServer server) (fun _ => ret server) in
  promise_catch running LogStartFailure (fun err =>
    ext (Import "screwdriver-logger" "error") [VStr "Failed to start server"; err]).

(** Post-registration wiring (l.135-157). *)
Definition wiring (server : value) : M unit :=
  wire_build server ;;
  wire_job server ;;
  register_shutdown server.

(** The continuation of a successful registration (l.132-163). *)
Definition onRegistered (server : value) : M value :=
  wiring server ;;
  start_and_report server.

(** [module.exports] (l.70-164) *)
Definition module_exports (config : value) : M value :=
  let! server := configure config in
  let! registered := ext (Import "./registerPlugins" "") [server; config] in
  promise_then registered (OnRegistered server) (fun _ => onRegistered server).

(** Calling one of the module's function objects. *)
Definition arg (n : nat) (args : list value) : value := nth n args VUndefined.

Definition invoke_closure (c : closure) (args : list value) : M value :=
  match c with
  | PrettyPrintErrors => prettyPrintErrors (arg 0 args) (arg 1 args)
  | OnRegistered server => onRegistered server
  | TokenGenBuild server =>
      tokenGenBuild server (arg 0 args) (arg 1 args) (arg 2 args) (arg 3 args)
  | TokenGenJob server =>
      tokenGenJob server (arg 0 args) (arg 1 args) (arg 2 args)
  | CleanupTask server => cleanupTask server
  | ReturnServer server => ret server
  | LogStartFailure =>
      ext (Import "screwdriver-logger" "error")
          [VStr "Failed to start server"; arg 0 args]
  end.

Definition call_function (f : value) (args : list value) : M value := fun σ =>
  match closure_at (st_heap σ) f with
  | Some c => invoke_closure c args σ
  | None => (Throw VTypeError, σ)
  end.

End Server.

(** ** Observations on a run *)

(** A value that is not a reference to nothing. *)
Definition allocated (h : heap) (v : value) : Prop :=
  match v with
  | VRef l => is_Some (h !! l)
  | _ => True
  end.

(** The origins of a CORS policy object. *)
Definition cors_origins (h : heap) (policy : value) : option (list value) :=
  match lookup_prop h policy "origin" with
  | Some o => array_elems h o
  | None => None
  end.

(** The extra-origins value is absent, an empty sequence, or not a sequence. *)
Inductive no_extra_origins (h : heap) : value → Prop :=
| extras_absent : no_extra_origins h VUndefined
| extras_empty v : array_elems h v = Some [] → no_extra_origins h v
| extras_not_sequence v :
    allocated h v → array_elems h v = None → no_extra_origins h v.

(** The number of calls of [c] among the events. *)
Definition count_calls (c : callee) (evs : list event) : nat :=
  length (List.filter (is_call c) evs).

(** The objects handed to [reply], as they were when handed over. *)
Definition replied (reply : value) (evs : list event) : list obj :=
  omap (λ e, match ev_callee e, ev_args e with
             | Fn f, [VRef l] => if decide (f = reply) then ev_heap e !! l else None
             | _, _ => None
             end) evs.

(** The response of [request] is a failure [err]: its [isBoom] flag is set. *)
Definition failure_response (h : heap) (request err : value) : Prop :=
  lookup_prop h request "response" = Some err ∧
  ∃ b, lookup_prop h err "isBoom" = Some b ∧ to_boolean b = true.

(** Logging on [request] returns, and leaves the object at [l] as it is. *)
Definition logging_keeps (env : environment) (request : value) (l : loc) : Prop :=
  ∀ tr tags detail h,
    ∃ x h', env (tr ++ [Event (Method request "log") [tags; detail] h]) = (Ok x, h') ∧
            h' !! l = h !! l.

Definition nullish (v : value) : Prop := v = VUndefined ∨ v = VNull.


(** ** Auxiliary programs

    Pieces of the functions above under names of their own, for the proofs. *)

Section Pieces.

Variable env : environment.

(** Lines 21-23 and 25-35 of [prettyPrintErrors], as the function runs them
    once the failure has been read. *)
Definition log_internal (request statusCode stack : value) : M unit :=
  if strict_eq statusCode (VNum 500) then
    require_object_coercible request ;;
    let! tags := new_array [VStr "server"; VStr "error"] in
    ext env (Method request "log") [tags; stack] ;;
    ret tt
  else ret tt.

Definition respond (reply err statusCode errName errMessage : value) : M value :=
  let! response := new_object [("statusCode", statusCode);
                               ("error", errName);
                               ("message", errMessage)] in
  let! data := get_prop err "data" in
  (if to_boolean data then
     let! data' := get_prop err "data" in
     set_prop response "data" data'
   else ret tt) ;;
  let! r := ext env (Fn reply) [response] in
  call_method env r "code" [statusCode].

End Pieces.

(** The shape the two wiring blocks share: l.135-140 with [buildFactory],
    its closure and [tokenGen]; l.142-147 with [jobFactory], its closure and
    [userTokenGen]. *)
Definition wire_domain (server : value) (factory : string) (c : closure)
    (slot : string) : M unit :=
  let! domain := get_path server ["app"; factory] in
  let! uri := get_path server ["info"; "uri"] in
  set_prop domain "apiUri" uri ;;
  let! domain := get_path server ["app"; factory] in
  let! tokenGen := new_closure c in
  set_prop domain "tokenGen" tokenGen ;;
  let! executor := get_path server ["app"; factory; "executor"] in
  let! tokenGen := get_path server ["app"; factory; "tokenGen"] in
  set_prop executor slot tokenGen.

(** The body [respond] builds: the three fields, and [data] when it is
    truthy. *)
Definition normalized (sc errName errMessage d : value) : gmap string value :=
  let fields := list_to_map [("statusCode", sc); ("error", errName);
                             ("message", errMessage)] in
  if to_boolean d then <["data" := d]> fields else fields.

(** What a run adds to the trace: events that all satisfy [P]. *)
Definition emits (P : event → Prop) {A} (m : M A) : Prop :=
  ∀ σ, ∃ evs, st_trace (m σ).2 = st_trace σ ++ evs ∧ Forall P evs.


(** ** A concrete deployment

    A configuration, a failure response and collaborators that behave as the
    real ones are documented to, on which the statements below are
    evaluated. *)

Module Scenario.

Local Open Scope positive_scope.

Definition plain (fields : list (string * value)) : obj :=
  Obj KPlain (list_to_map fields).

Definition put (l : loc) (o : obj) (h : heap) : heap := <[l := o]> h.

(** [{ ecosystem: { ui: 'https://ui.example' } }] *)
Definition store_ui_only : heap :=
  list_to_map
    [ (1, plain [("ecosystem", VRef 2)]);
      (2, plain [("ui", VStr "https://ui.example")]) ].

(** A full configuration with two extra origins and the two domain
    factories, each with its executor. *)
Definition store0 : heap :=
  list_to_map
    [ (1, plain [("ecosystem", VRef 2); ("httpd", VRef 3);
                 ("buildFactory", VRef 4); ("jobFactory", VRef 6)]);
      (2, plain [("ui", VStr "https://ui.example"); ("allowCors", VRef 8)]);
      (3, plain [("port", VNum 8080%Z)]);
      (4, plain [("executor", VRef 5)]);
      (5, plain []);
      (6, plain [("executor", VRef 7)]);
      (7, plain []);
      (8, Obj (KArray [VStr "https://a.example"; VStr "https://b.example"]) ∅);
      (9, Obj (KFun PrettyPrintErrors) ∅);
      (10, plain []) ].

Definition config : value := VRef 1.
Definition extra_origins : value := VRef 8.
Definition prettyPrintErrors_fn : value := VRef 9.
Definition start0 : state := State store0 [].

(** A request whose response is a failure: [request] at 1, the failure at 2,
    its output at 3, the payload at 4, [reply] at 5. *)
Definition failure_store (status : Z) (label payload_message message : string)
    (data : list (string * value)) : heap :=
  list_to_map
    [ (1, plain [("response", VRef 2)]);
      (2, plain ([("isBoom", VBool true); ("message", VStr message);
                  ("output", VRef 3)] ++ data));
      (3, plain [("statusCode", VNum status); ("payload", VRef 4)]);
      (4, plain [("statusCode", VNum status); ("error", VStr label);
                 ("message", VStr payload_message)]);
      (5, plain []);
      (6, plain [("reason", VStr "db")]) ].

Definition request : value := VRef 1.
Definition failure : value := VRef 2.
Definition reply : value := VRef 5.

(** The collaborators: the server Hapi builds has [info] and [plugins]; the
    registrar installs [auth] and [shutdown], the latter with its [handler],
    and returns a promise in the state [registered]; [start] returns one in the state [started]; the
    logger and every other call return nothing and leave the store alone. *)
Definition world (registered started : pstate) : environment := fun tr =>
  match last tr with
  | None => (Ok VUndefined, ∅)
  | Some (Event c args h) =>
      let l := fresh_loc h in
      match c with
      | Construct _ _ =>
          (Ok (VRef l),
           put l (plain [("info", VRef (l + 1)); ("plugins", VRef (l + 2))])
             (put (l + 1) (plain [("uri", VStr "http://localhost:8080")])
                (put (l + 2) (plain []) h)))
      | Import "./registerPlugins" _ =>
          match lookup_prop h (arg 0 args) "plugins" with
          | Some plugins =>
              match store_prop (put (l + 1) (plain [])
                                  (put (l + 2) (plain [("handler", VRef (l + 3))])
                                     (put (l + 3) (plain []) h)))
                               plugins "auth" (VRef (l + 1)) with
              | Some h1 =>
                  match store_prop h1 plugins "shutdown" (VRef (l + 2)) with
                  | Some h2 => (Ok (VRef l), put l (Obj (KPromise registered) ∅) h2)
                  | None => (Throw VTypeError, h)
                  end
              | None => (Throw VTypeError, h)
              end
          | None => (Throw VTypeError, h)
          end
      | Method _ "start" => (Ok (VRef l), put l (Obj (KPromise started) ∅) h)
      | Method _ "cleanUp" =>
          (Ok (VRef l), put l (Obj (KPromise (Fulfilled VUndefined)) ∅) h)
      | Method _ "generateProfile" =>
          (Ok (VRef l), put l (plain [("scope", arg 2 args)]) h)
      | Method _ "generateToken" => (Ok (VStr "signed-token"), h)
      | Fn _ => (Ok (VRef l), put l (plain []) h)
      | _ => (Ok VUndefined, h)
      end
  end.

(** The value and the state a run ends with. *)
Definition value_of {A} (d : A) (r : result A * state) : A :=
  match r.1 with
  | Ok a => a
  | Throw _ => d
  end.

Definition state_of {A} (r : result A * state) : state := r.2.

(** Scenario D: the registrar rejects. *)
Definition failing_registrar : environment :=
  world (Rejected (VStr "install failed")) Pending.

(** The listener fails to bind. *)
Definition failing_listener : environment :=
  world (Fulfilled VUndefined) (Rejected (VStr "EADDRINUSE")).

(** Scenario E: registration succeeds and the token generators are used. *)
Definition running : environment :=
  world (Fulfilled VUndefined) (Fulfilled VUndefined).

Definition configured : result value * state :=
  configure running prettyPrintErrors_fn config start0.

Definition server : value := value_of VUndefined configured.

Definition registered : state :=
  state_of (ext running (Import "./registerPlugins" "") [server; config]
                (state_of configured)).

Definition built : state := state_of (wire_build server registered).

Definition jobbed : state := state_of (wire_job server built).

Definition auth : value := VRef 24.
Definition shutdown : value := VRef 25.
Definition metadata : value := VRef 10.

(** Scenario C: an internal failure carrying [data]. *)
Definition internal_failure : state :=
  State (failure_store 500 "Internal Server Error"
           "An internal server error occurred" "disk quota exceeded"
           [("data", VRef 6)]) [].

(** A failure whose [data] is the number 0: the attribute is there, and the
    body sent to the client has no [data] key. *)
Definition falsy_data_failure : state :=
  State (failure_store 400 "Bad Request" "invalid" "invalid" [("data", VNum 0)]) [].

End Scenario.

(** ** Deployments that deviate

    Responses, configurations and collaborators off the main road: what is
    not a failure, what lacks a part, what throws. *)

Module Deviations.

Import Scenario.

Local Open Scope positive_scope.

(** A request whose response is no failure. *)
Definition success_response : state :=
  State (list_to_map
           [ (1, plain [("response", VRef 2)]);
             (2, plain [("statusCode", VNum 200%Z)]);
             (5, plain []) ]) [].

(** A failure that carries no output. *)
Definition bare_failure : state :=
  State (list_to_map
           [ (1, plain [("response", VRef 2)]);
             (2, plain [("isBoom", VBool true); ("message", VStr "boom")]);
             (5, plain []) ]) [].

(** A configuration without an ecosystem. *)
Definition start_without_ecosystem : state :=
  State (list_to_map
           [ (1, plain [("httpd", VRef 3)]);
             (3, plain [("port", VNum 8080%Z)]) ]) [].

(** A configuration without the domain factories. *)
Definition start_without_factories : state :=
  State (list_to_map
           [ (1, plain [("ecosystem", VRef 2); ("httpd", VRef 3)]);
             (2, plain [("ui", VStr "https://ui.example")]);
             (3, plain [("port", VNum 8080%Z)]);
             (9, Obj (KFun PrettyPrintErrors) ∅) ]) [].

(** Logging on a request throws. *)
Definition failing_log : environment := fun tr =>
  match last tr with
  | Some (Event (Method _ "log") _ h) => (Throw (VStr "log unavailable"), h)
  | _ => running tr
  end.

(** The listener fails to bind, and the logger's [error] returns the text it
    wrote. *)
Definition answering_logger : environment := fun tr =>
  match last tr with
  | Some (Event (Import "screwdriver-logger" "error") _ h) => (Ok (VStr "logged"), h)
  | _ => failing_listener tr
  end.

(** The listener fails to bind, and the logger cannot write. *)
Definition broken_logger : environment := fun tr =>
  match last tr with
  | Some (Event (Import "screwdriver-logger" "error") _ h) => (Throw (VStr "EPIPE"), h)
  | _ => failing_listener tr
  end.

(** [start] throws instead of returning a promise. *)
Definition throwing_start : environment := fun tr =>
  match last tr with
  | Some (Event (Method _ "start") _ h) => (Throw (VStr "EACCES"), h)
  | _ => running tr
  end.

(** The registrar never settles. *)
Definition stalled_registrar : environment := world Pending Pending.

(** The auth capability knows no such subject. *)
Definition failing_profile : environment := fun tr =>
  match last tr with
  | Some (Event (Method _ "generateProfile") _ h) => (Throw (VStr "unknown subject"), h)
  | _ => running tr
  end.

(** [cleanUp] returns a promise that is rejected. *)
Definition failing_cleanup : environment := fun tr =>
  match last tr with
  | Some (Event (Method _ "cleanUp") _ h) =>
      (Ok (VRef (fresh_loc h)),
       put (fresh_loc h) (Obj (KPromise (Rejected (VStr "queue down"))) ∅) h)
  | _ => running tr
  end.

(** The server as it is before the registrar has installed the plugins. *)
Definition unregistered : state := state_of configured.

(** The listener fails to bind, and the logger's [error] returns the logger,
    as a logger with chained calls does. *)
Definition returning_logger : environment := fun tr =>
  match last tr with
  | Some (Event (Import "screwdriver-logger" "error") _ h) =>
      (Ok (VRef (fresh_loc h)), put (fresh_loc h) (plain []) h)
  | _ => failing_listener tr
  end.

(** A configuration that hands one object as build-domain and as job-domain
    service. *)
Definition start_shared_factory : state :=
  State (list_to_map
           [ (1, plain [("ecosystem", VRef 2); ("httpd", VRef 3);
                        ("buildFactory", VRef 4); ("jobFactory", VRef 4)]);
             (2, plain [("ui", VStr "https://ui.example")]);
             (3, plain [("port", VNum 8080%Z)]);
             (4, plain [("executor", VRef 5)]);
             (5, plain []);
             (9, Obj (KFun PrettyPrintErrors) ∅);
             (10, plain []) ]) [].

(** The bootstrap on it, and a call of what [buildFactory.tokenGen] then
    holds. *)
Definition shared_boot : result value * state :=
  module_exports running prettyPrintErrors_fn config start_shared_factory.

Definition shared_server : value :=
  value_of VUndefined (configure running prettyPrintErrors_fn config start_shared_factory).

Definition shared_generator : value :=
  default VUndefined
    (lookup_path (st_heap (state_of shared_boot)) shared_server
       ["app"; "buildFactory"; "tokenGen"]).

Definition shared_call : result value * state :=
  call_function running shared_generator
    [VStr "b1"; metadata; VStr "gh"; VNum 3600%Z] (state_of shared_boot).


End Deviations.

(** * Proofs *)

(** ** Properties of the store *)

Section Store.

Implicit Types (h : heap) (v x : value) (k : string) (l : loc) (o : obj).

Lemma fresh_loc_bound h l o :
  h !! l = Some o → (l < fresh_loc h)%positive.
Proof.
  intros Hl. unfold fresh_loc.
  assert (Hin : l ∈ map fst (map_to_list h)).
  { apply list_elem_of_In, in_map_iff. exists (l, o). split; [done|].
    apply list_elem_of_In, elem_of_map_to_list, Hl. }
  revert Hin. generalize (map fst (map_to_list h)). intros ks.
  induction ks as [|a ks IH]; intros Hin.
  - inversion Hin.
  - simpl. apply elem_of_cons in Hin as [->|Hin]; [lia|].
    specialize (IH Hin). lia.
Qed.

Lemma fresh_loc_unused h : h !! fresh_loc h = None.
Proof.
  destruct (h !! fresh_loc h) as [o|] eqn:E; [|done].
  apply fresh_loc_bound in E. lia.
Qed.

Lemma alloc_extends h o : h ⊆ <[fresh_loc h := o]> h.
Proof. apply insert_subseteq, fresh_loc_unused. Qed.

Lemma lookup_prop_weaken h h' v k x :
  h ⊆ h' → lookup_prop h v k = Some x → lookup_prop h' v k = Some x.
Proof.
  intros Hsub. destruct v; simpl; try done.
  destruct (h !! l) as [o|] eqn:E; [|done].
  by rewrite (lookup_weaken _ _ _ _ E Hsub).
Qed.

Lemma lookup_path_weaken h h' ks v x :
  h ⊆ h' → lookup_path h v ks = Some x → lookup_path h' v ks = Some x.
Proof.
  intros Hsub. revert v. induction ks as [|k ks IH]; intros v; simpl; [done|].
  destruct (lookup_prop h v k) as [y|] eqn:E; [|done].
  rewrite (lookup_prop_weaken _ _ _ _ _ Hsub E). apply IH.
Qed.

Lemma array_elems_weaken h h' v es :
  h ⊆ h' → array_elems h v = Some es → array_elems h' v = Some es.
Proof.
  intros Hsub. destruct v; simpl; try done.
  destruct (h !! l) as [o|] eqn:E; [|done].
  by rewrite (lookup_weaken _ _ _ _ E Hsub).
Qed.

Lemma closure_at_weaken h h' v c :
  h ⊆ h' → closure_at h v = Some c → closure_at h' v = Some c.
Proof.
  intros Hsub. destruct v; simpl; try done.
  destruct (h !! l) as [o|] eqn:E; [|done].
  by rewrite (lookup_weaken _ _ _ _ E Hsub).
Qed.

Lemma array_elems_None_weaken h h' v :
  h ⊆ h' → allocated h v → array_elems h v = None → array_elems h' v = None.
Proof.
  intros Hsub Hv. destruct v; simpl in *; try done.
  destruct Hv as [o E]. rewrite E, (lookup_weaken _ _ _ _ E Hsub). done.
Qed.

(** What a write changes: one key of one object. *)
Lemma store_prop_inv h v k x h' :
  store_prop h v k x = Some h' →
  ∃ l o, v = VRef l ∧ h !! l = Some o ∧
         h' = <[l := Obj (okind o) (<[k := x]> (props o))]> h.
Proof.
  destruct v; simpl; try done.
  destruct (h !! l) as [o|] eqn:E; [|done].
  intros [= <-]. eauto.
Qed.

Lemma lookup_prop_store_same h v k x h' :
  store_prop h v k x = Some h' → lookup_prop h' v k = Some x.
Proof.
  intros (l & o & -> & Hl & ->)%store_prop_inv. simpl.
  by rewrite lookup_insert_eq; simpl; rewrite lookup_insert_eq.
Qed.

Lemma lookup_prop_store_key h v k x h' w k' :
  store_prop h v k x = Some h' → k' ≠ k → lookup_prop h' w k' = lookup_prop h w k'.
Proof.
  intros (l & o & -> & Hl & ->)%store_prop_inv Hk.
  destruct w as [| | | | | |l']; simpl; try done.
  destruct (decide (l = l')) as [<-|Hne].
  - rewrite lookup_insert_eq, Hl. simpl. by rewrite lookup_insert_ne.
  - by rewrite lookup_insert_ne.
Qed.

Lemma lookup_prop_store_obj h v k x h' w k' :
  store_prop h v k x = Some h' → w ≠ v → lookup_prop h' w k' = lookup_prop h w k'.
Proof.
  intros (l & o & -> & Hl & ->)%store_prop_inv Hw.
  destruct w as [| | | | | |l']; simpl; try done.
  rewrite lookup_insert_ne; [done|congruence].
Qed.

Lemma lookup_path_store_key h v k x h' ks w :
  store_prop h v k x = Some h' → k ∉ ks → lookup_path h' w ks = lookup_path h w ks.
Proof.
  intros Hst. revert w. induction ks as [|k' ks IH]; intros w Hk; simpl; [done|].
  apply not_elem_of_cons in Hk as [Hk Hks].
  rewrite (lookup_prop_store_key _ _ _ _ _ _ _ Hst) by done.
  destruct (lookup_prop h w k'); [by apply IH|done].
Qed.

Lemma closure_at_store h v k x h' w :
  store_prop h v k x = Some h' → closure_at h' w = closure_at h w.
Proof.
  intros (l & o & -> & Hl & ->)%store_prop_inv.
  destruct w as [| | | | | |l']; simpl; try done.
  destruct (decide (l = l')) as [<-|Hne].
  - rewrite lookup_insert_eq, Hl. by destruct o.
  - by rewrite lookup_insert_ne.
Qed.

End Store.

(** ** Running the monad on an explicit state *)

Section Running.

Implicit Types (h : heap) (v x : value) (k : string) (σ : state) (tr : list event).

Lemma run_bind {A B} (m : M A) (k : A → M B) σ :
  bind m k σ = match m σ with
               | (Ok a, σ') => k a σ'
               | (Throw e, σ') => (Throw e, σ')
               end.
Proof. done. Qed.

Lemma run_ret {A} (a : A) σ : ret a σ = (Ok a, σ).
Proof. done. Qed.

Lemma run_throw {A} e σ : @throw A e σ = (Throw e, σ).
Proof. done. Qed.

Lemma run_get_prop v k h tr :
  get_prop v k (State h tr) = match lookup_prop h v k with
                              | Some x => (Ok x, State h tr)
                              | None => (Throw VTypeError, State h tr)
                              end.
Proof. done. Qed.

Lemma run_get_path ks v h tr :
  get_path v ks (State h tr) = match lookup_path h v ks with
                               | Some x => (Ok x, State h tr)
                               | None => (Throw VTypeError, State h tr)
                               end.
Proof.
  revert v. induction ks as [|k ks IH]; intros v; simpl; [done|].
  rewrite run_bind, run_get_prop.
  destruct (lookup_prop h v k); [apply IH|done].
Qed.

Lemma run_set_prop v k x h tr :
  set_prop v k x (State h tr) = match store_prop h v k x with
                                | Some h' => (Ok tt, State h' tr)
                                | None => (Throw VTypeError, State h tr)
                                end.
Proof. done. Qed.

Lemma run_new_array es h tr :
  new_array es (State h tr)
  = (Ok (VRef (fresh_loc h)), State (<[fresh_loc h := Obj (KArray es) ∅]> h) tr).
Proof. done. Qed.

Lemma run_new_object fields h tr :
  new_object fields (State h tr)
  = (Ok (VRef (fresh_loc h)),
     State (<[fresh_loc h := Obj KPlain (list_to_map fields)]> h) tr).
Proof. done. Qed.

Lemma run_new_closure c h tr :
  new_closure c (State h tr)
  = (Ok (VRef (fresh_loc h)), State (<[fresh_loc h := Obj (KFun c) ∅]> h) tr).
Proof. done. Qed.

Lemma run_new_promise st h tr :
  new_promise st (State h tr)
  = (Ok (VRef (fresh_loc h)), State (<[fresh_loc h := Obj (KPromise st) ∅]> h) tr).
Proof. done. Qed.

Lemma run_isArray v h tr :
  Array_isArray v (State h tr) = (Ok (is_array h v), State h tr).
Proof. done. Qed.

Lemma run_is_callable v h tr :
  is_callable v (State h tr) = (Ok (callable h v), State h tr).
Proof. done. Qed.

Lemma run_ext env c args h tr :
  ext env c args (State h tr)
  = (fst (env (tr ++ [Event c args h])),
     State (snd (env (tr ++ [Event c args h]))) (tr ++ [Event c args h])).
Proof. unfold ext. cbn [st_heap st_trace]. by destruct (env _). Qed.

Lemma lookup_object h l (fields : list (string * value)) k :
  lookup_prop (<[l := Obj KPlain (list_to_map fields)]> h) (VRef l) k
  = Some (default VUndefined ((list_to_map fields : gmap string value) !! k)).
Proof. simpl. by rewrite lookup_insert_eq. Qed.

Lemma array_elems_insert h l es ps :
  array_elems (<[l := Obj (KArray es) ps]> h) (VRef l) = Some es.
Proof. unfold array_elems. by rewrite lookup_insert_eq. Qed.

Lemma is_array_true h v es : array_elems h v = Some es → is_array h v = true.
Proof. intros H. unfold is_array. rewrite H. by apply bool_decide_eq_true_2. Qed.

Lemma is_array_false h v : array_elems h v = None → is_array h v = false.
Proof.
  intros H. unfold is_array. rewrite H. apply bool_decide_eq_false_2. by intros [? ?].
Qed.

End Running.

(** ** What a run adds to the trace *)

Section Emits.

Context (env : environment) (P : event → Prop).

Lemma emits_silent {A} (m : M A) :
  (∀ σ, st_trace (m σ).2 = st_trace σ) → emits P m.
Proof. intros H σ. exists []. by rewrite H, app_nil_r. Qed.

Lemma emits_ret {A} (a : A) : emits P (ret a).
Proof. by apply emits_silent. Qed.

Lemma emits_throw {A} e : emits P (@throw A e).
Proof. by apply emits_silent. Qed.

Lemma emits_bind {A B} (m : M A) (k : A → M B) :
  emits P m → (∀ a, emits P (k a)) → emits P (bind m k).
Proof.
  intros Hm Hk σ. unfold bind.
  destruct (Hm σ) as (evs1 & E1 & F1).
  destruct (m σ) as [[a|e] σ1]; cbn [snd] in *.
  - destruct (Hk a σ1) as (evs2 & E2 & F2).
    exists (evs1 ++ evs2). rewrite E2, E1, app_assoc. split; [done|].
    by apply Forall_app.
  - by exists evs1.
Qed.

Lemma emits_get_prop v k : emits P (get_prop v k).
Proof.
  apply emits_silent. intros σ. unfold get_prop.
  by destruct (lookup_prop _ _ _).
Qed.

Lemma emits_get_path v ks : emits P (get_path v ks).
Proof.
  revert v. induction ks as [|k ks IH]; intros v; simpl.
  - apply emits_ret.
  - apply emits_bind; [apply emits_get_prop|done].
Qed.

Lemma emits_read_fields v ks : emits P (read_fields v ks).
Proof.
  induction ks as [|k ks IH]; simpl.
  - apply emits_ret.
  - apply emits_bind; [apply emits_get_prop|]. intros x.
    apply emits_bind; [done|]. intros rest. apply emits_ret.
Qed.

Lemma emits_set_prop v k x : emits P (set_prop v k x).
Proof.
  apply emits_silent. intros σ. unfold set_prop.
  by destruct (store_prop _ _ _ _).
Qed.

Lemma emits_alloc o : emits P (alloc o).
Proof. by apply emits_silent. Qed.

Lemma emits_isArray v : emits P (Array_isArray v).
Proof. by apply emits_silent. Qed.

Lemma emits_is_callable v : emits P (is_callable v).
Proof. by apply emits_silent. Qed.

Lemma emits_concat a x : emits P (Array_concat a x).
Proof.
  apply emits_silent. intros σ. unfold Array_concat.
  by destruct (array_elems _ a).
Qed.

Lemma emits_coercible v : emits P (require_object_coercible v).
Proof. destruct v; (apply emits_ret || apply emits_throw). Qed.

Lemma emits_ext c args :
  (∀ h, P (Event c args h)) → emits P (ext env c args).
Proof.
  intros HP σ. unfold ext. destruct (env _) as [r h]. cbn [snd st_trace].
  eexists. split; [done|]. by apply Forall_singleton.
Qed.

Lemma emits_call_method this name args :
  (∀ h, P (Event (Method this name) args h)) → emits P (call_method env this name args).
Proof.
  intros HP. apply emits_bind; [apply emits_coercible|]. intros _. by apply emits_ext.
Qed.

Lemma emits_if {A} (b : bool) (m1 m2 : M A) :
  emits P m1 → emits P m2 → emits P (if b then m1 else m2).
Proof. by destruct b. Qed.

Lemma emits_promise_then p c body :
  (∀ v, emits P (body v)) →
  (∀ h cb, P (Event (Method p "then") [cb] h)) →
  emits P (promise_then env p c body).
Proof.
  intros Hbody HP. apply emits_bind; [apply emits_coercible|]. intros _ σ.
  destruct (promise_state (st_heap σ) p) as [[|v|e]|] eqn:E.
  - by apply emits_alloc.
  - destruct (Hbody v σ) as (evs & E1 & F1).
    destruct (body v σ) as [[r|e] σ1]; cbn [snd] in *.
    + exists evs. split; [|done]. by rewrite <- E1.
    + exists evs. split; [|done]. by rewrite <- E1.
  - by apply emits_alloc.
  - apply emits_bind; [apply emits_alloc|]. intros cb. by apply emits_ext.
Qed.

Lemma emits_promise_catch p c body :
  (∀ v, emits P (body v)) →
  (∀ h cb, P (Event (Method p "catch") [cb] h)) →
  emits P (promise_catch env p c body).
Proof.
  intros Hbody HP. apply emits_bind; [apply emits_coercible|]. intros _ σ.
  destruct (promise_state (st_heap σ) p) as [[|v|e]|] eqn:E.
  - by apply emits_alloc.
  - by apply emits_alloc.
  - destruct (Hbody e σ) as (evs & E1 & F1).
    destruct (body e σ) as [[r|e'] σ1]; cbn [snd] in *.
    + exists evs. split; [|done]. by rewrite <- E1.
    + exists evs. split; [|done]. by rewrite <- E1.
  - apply emits_bind; [apply emits_alloc|]. intros cb. by apply emits_ext.
Qed.

End Emits.

(** Discharges [emits P m] for a program [m] built from the primitives, leaving
    the conditions on the calls it makes. *)
Ltac emits_step :=
  first
    [ apply emits_ret | apply emits_throw
    | apply emits_get_prop | apply emits_get_path | apply emits_read_fields
    | apply emits_set_prop | apply emits_alloc | apply emits_isArray
    | apply emits_is_callable
    | apply emits_concat | apply emits_coercible
    | apply emits_bind; [|intros ?]
    | apply emits_if
    | apply emits_call_method; intros ?
    | apply emits_ext; intros ?
    | apply emits_promise_then; [intros ?|intros ? ?]
    | apply emits_promise_catch; [intros ?|intros ? ?] ].

Ltac emits_auto := repeat emits_step.

(** ** The CORS policy *)

Section Cors.

Lemma corsOrigins_run σ config ui extra :
  lookup_path (st_heap σ) config ["ecosystem"; "ui"] = Some ui →
  lookup_path (st_heap σ) config ["ecosystem"; "allowCors"] = Some extra →
  allocated (st_heap σ) extra →
  ∃ origins σ',
    corsOrigins config σ = (Ok origins, σ') ∧
    st_trace σ' = st_trace σ ∧
    st_heap σ ⊆ st_heap σ' ∧
    array_elems (st_heap σ') origins
    = Some (ui :: default [] (array_elems (st_heap σ) extra)).
Proof.
  destruct σ as [h tr]. cbn [st_heap st_trace]. intros Hui Hextra Halloc.
  unfold corsOrigins.
  rewrite run_bind, run_get_path, Hui. cbv beta iota.
  rewrite run_bind, run_new_array. cbv beta iota.
  set (l1 := fresh_loc h). set (h1 := <[l1 := _]> h).
  assert (Hh1 : h ⊆ h1) by apply alloc_extends.
  assert (Hextra1 := lookup_path_weaken _ _ _ _ _ Hh1 Hextra).
  assert (Harr1 : array_elems h1 (VRef l1) = Some [ui]) by apply array_elems_insert.
  rewrite run_bind, run_get_path, Hextra1. cbv beta iota.
  rewrite run_bind, run_isArray. cbv beta iota.
  destruct (array_elems h extra) as [xs|] eqn:Hxs; cbn [default].
  - assert (Hxs1 := array_elems_weaken _ _ _ _ Hh1 Hxs).
    rewrite (is_array_true _ _ _ Hxs1).
    rewrite run_bind, run_get_path, Hextra1. cbv beta iota.
    unfold Array_concat. cbn [st_heap]. rewrite Harr1, Hxs1, run_new_array.
    set (l2 := fresh_loc h1). set (h2 := <[l2 := _]> h1).
    assert (Hh2 : h1 ⊆ h2) by apply alloc_extends.
    exists (VRef l2), (State h2 tr). cbn [st_heap st_trace].
    split; [done|]. split; [done|]. split; [by transitivity h1|].
    apply array_elems_insert.
  - assert (Hxs1 := array_elems_None_weaken _ _ _ Hh1 Halloc Hxs).
    rewrite (is_array_false _ _ Hxs1), run_ret.
    exists (VRef l1), (State h1 tr). by cbn [st_heap st_trace].
Qed.

Lemma cors_run σ config ui extra :
  lookup_path (st_heap σ) config ["ecosystem"; "ui"] = Some ui →
  lookup_path (st_heap σ) config ["ecosystem"; "allowCors"] = Some extra →
  allocated (st_heap σ) extra →
  ∃ policy σ',
    cors config σ = (Ok policy, σ') ∧
    st_trace σ' = st_trace σ ∧
    cors_origins (st_heap σ') policy
    = Some (ui :: default [] (array_elems (st_heap σ) extra)).
Proof.
  intros Hui Hextra Halloc.
  destruct (corsOrigins_run σ config ui extra Hui Hextra Halloc)
    as (origins & [h1 tr1] & Hrun & Htr & _ & Harr).
  cbn [st_heap st_trace] in *. unfold cors.
  rewrite run_bind, Hrun, run_bind, run_new_array. cbv beta iota.
  set (l2 := fresh_loc h1). set (h2 := <[l2 := _]> h1).
  assert (Hh2 : h1 ⊆ h2) by apply alloc_extends.
  rewrite run_new_object.
  set (l3 := fresh_loc h2). set (h3 := <[l3 := _]> h2).
  assert (Hh3 : h2 ⊆ h3) by apply alloc_extends.
  exists (VRef l3), (State h3 tr1). cbn [st_heap st_trace].
  split; [done|]. split; [done|].
  unfold cors_origins, h3 at 1. rewrite lookup_object.
  change (default VUndefined _) with origins.
  apply (array_elems_weaken h1); [by transitivity h2|done].
Qed.

End Cors.

Section CorsTheorems.

(** C5: when the extra-origins value [config.ecosystem.allowCors] is absent,
    an empty sequence, or not a sequence, the origins of the computed CORS
    policy are exactly the UI origin. *)
Theorem cors_origins_without_extras σ config ui extra :
  lookup_path (st_heap σ) config ["ecosystem"; "ui"] = Some ui →
  lookup_path (st_heap σ) config ["ecosystem"; "allowCors"] = Some extra →
  no_extra_origins (st_heap σ) extra →
  ∃ policy σ',
    cors config σ = (Ok policy, σ') ∧
    cors_origins (st_heap σ') policy = Some [ui].
Proof.
  intros Hui Hextra Hno.
  assert (allocated (st_heap σ) extra ∧
          default [] (array_elems (st_heap σ) extra) = []) as [Ha Hd].
  { destruct Hno as [|v Hv|v Ha Hv]; [done| |by rewrite Hv].
    rewrite Hv. split; [|done].
    destruct v; try done. simpl in *. by destruct (st_heap σ !! l). }
  destruct (cors_run σ config ui extra Hui Hextra Ha)
    as (policy & σ' & Hrun & _ & Ho).
  exists policy, σ'. by rewrite Ho, Hd.
Qed.

(** C6: when the extra-origins value is the sequence [o1, o2], the origins of
    the computed CORS policy are [uiOrigin, o1, o2], in that order. *)
Theorem cors_origins_with_extras σ config ui extra o1 o2 :
  lookup_path (st_heap σ) config ["ecosystem"; "ui"] = Some ui →
  lookup_path (st_heap σ) config ["ecosystem"; "allowCors"] = Some extra →
  array_elems (st_heap σ) extra = Some [o1; o2] →
  ∃ policy σ',
    cors config σ = (Ok policy, σ') ∧
    cors_origins (st_heap σ') policy = Some [ui; o1; o2].
Proof.
  intros Hui Hextra Harr.
  assert (Ha : allocated (st_heap σ) extra).
  { destruct extra; try done. simpl in *. by destruct (st_heap σ !! l). }
  destruct (cors_run σ config ui extra Hui Hextra Ha)
    as (policy & σ' & Hrun & _ & Ho).
  exists policy, σ'. by rewrite Ho, Harr.
Qed.

End CorsTheorems.

(** ** The error normalizer *)

Section Normalizer.

Context (env : environment).

Implicit Types (h : heap) (tr : list event) (v : value).

Lemma lookup_prop_defined h v k x k' :
  lookup_prop h v k = Some x → ∃ y, lookup_prop h v k' = Some y.
Proof.
  destruct v; simpl; try done; eauto.
  destruct (h !! l); [eauto|done].
Qed.

Lemma prettyPrintErrors_failure h tr request reply err sc :
  failure_response h request err →
  lookup_path h err ["output"; "payload"; "statusCode"] = Some sc →
  ∃ errName errMessage stack0,
    lookup_path h err ["output"; "payload"; "error"] = Some errName ∧
    lookup_prop h err "message" = Some errMessage ∧
    lookup_prop h err "stack" = Some stack0 ∧
    prettyPrintErrors env request reply (State h tr)
    = (log_internal env request sc (or_else stack0 errMessage) ;;
       respond env reply err sc errName errMessage) (State h tr).
Proof.
  intros Hf Hsc. pose proof Hf as (Hresp & b & Hb & Ht).
  destruct (lookup_prop_defined _ _ _ _ "message" Hb) as [errMessage Hmsg].
  destruct (lookup_prop_defined _ _ _ _ "stack" Hb) as [stack0 Hstack].
  assert (∃ errName, lookup_path h err ["output"; "payload"; "error"] = Some errName)
    as [errName Hname].
  { simpl in Hsc |- *.
    destruct (lookup_prop h err "output") as [out|]; [|done].
    destruct (lookup_prop h out "payload") as [pay|]; [|done].
    destruct (lookup_prop h pay "statusCode") as [?|] eqn:E; [|done].
    destruct (lookup_prop_defined _ _ _ _ "error" E) as [y ->]. eauto. }
  exists errName, errMessage, stack0. do 3 (split; [done|]).
  unfold prettyPrintErrors.
  rewrite run_bind, run_get_prop, Hresp. cbv beta iota.
  rewrite run_bind, run_get_prop, Hb. cbv beta iota. rewrite Ht.
  rewrite run_bind, run_get_prop, Hresp. cbv beta iota.
  rewrite run_bind, run_get_path, Hname. cbv beta iota.
  rewrite run_bind, run_get_prop, Hmsg. cbv beta iota.
  rewrite run_bind, run_get_path, Hsc. cbv beta iota.
  rewrite run_bind, run_get_prop, Hstack. cbv beta iota.
  done.
Qed.

Lemma respond_no_log request reply err sc errName errMessage :
  emits (λ e, is_call (Method request "log") e = false)
        (respond env reply err sc errName errMessage).
Proof.
  unfold respond, new_object. emits_auto; simpl; [done|].
  by rewrite andb_false_r.
Qed.

End Normalizer.

Section NormalizerClaims.

Context (env : environment).

Implicit Types (h : heap) (tr : list event) (v : value).

Lemma count_calls_app c evs1 evs2 :
  count_calls c (evs1 ++ evs2) = (count_calls c evs1 + count_calls c evs2)%nat.
Proof. unfold count_calls. by rewrite List.filter_app, length_app. Qed.

Lemma count_calls_none c evs :
  Forall (λ e, is_call c e = false) evs → count_calls c evs = 0%nat.
Proof.
  unfold count_calls. induction 1 as [|e evs He _ IH]; simpl; [done|].
  by rewrite He.
Qed.

Lemma replied_other reply e evs :
  (∀ f, ev_callee e ≠ Fn f) → replied reply (e :: evs) = replied reply evs.
Proof.
  intros He. destruct e as [[| f | |] args h]; try done. by destruct (He f).
Qed.

Lemma replied_reply reply l h o evs :
  h !! l = Some o →
  replied reply (Event (Fn reply) [VRef l] h :: evs) = o :: replied reply evs.
Proof.
  intros Ho. unfold replied at 1. cbn [omap list_omap ev_callee ev_args ev_heap].
  by rewrite decide_True, Ho.
Qed.

Lemma replied_none reply evs :
  Forall (λ e, ∀ f, ev_callee e ≠ Fn f) evs → replied reply evs = [].
Proof.
  induction 1 as [|e evs He _ IH]; [done|]. by rewrite replied_other.
Qed.

(** Handing [body] to [reply] and setting the status code: the one object
    replied is [body]. *)
Lemma reply_and_code_run reply lb body sc h tr :
  h !! lb = Some body →
  ∃ evs, st_trace ((let! r := ext env (Fn reply) [VRef lb] in
                    call_method env r "code" [sc]) (State h tr)).2 = tr ++ evs ∧
         replied reply evs = [body] ∧
         count_calls (Fn reply) evs = 1%nat.
Proof.
  intros Hb. rewrite run_bind, run_ext.
  destruct (env (tr ++ [Event (Fn reply) [VRef lb] h])) as [[r|e] h1]; cbn [fst snd].
  - assert (emits (λ e, ∀ f, ev_callee e ≠ Fn f) (call_method env r "code" [sc])) as Hq.
    { emits_auto. by intros f. }
    destruct (Hq (State h1 (tr ++ [Event (Fn reply) [VRef lb] h]))) as (evs & E & F).
    cbn [st_trace] in E. exists (Event (Fn reply) [VRef lb] h :: evs).
    rewrite E, <- app_assoc. split; [done|]. split.
    + rewrite (replied_reply _ _ _ _ _ Hb). f_equal. by apply replied_none.
    + change (Event (Fn reply) [VRef lb] h :: evs)
        with ([Event (Fn reply) [VRef lb] h] ++ evs).
      rewrite count_calls_app, (count_calls_none _ evs).
      * unfold count_calls. simpl. by rewrite bool_decide_eq_true_2.
      * eapply Forall_impl; [exact F|]. intros [[| f | |] ? ?] Hf; simpl; try done.
        by destruct (Hf f).
  - exists [Event (Fn reply) [VRef lb] h]. split; [done|]. split.
    + by rewrite (replied_reply _ _ _ _ _ Hb).
    + unfold count_calls. simpl. by rewrite bool_decide_eq_true_2.
Qed.

Lemma respond_run h tr reply err sc errName errMessage d :
  lookup_prop h err "data" = Some d →
  ∃ lb hb,
    hb !! lb = Some (Obj KPlain (normalized sc errName errMessage d)) ∧
    respond env reply err sc errName errMessage (State h tr)
    = (let! r := ext env (Fn reply) [VRef lb] in
       call_method env r "code" [sc]) (State hb tr).
Proof.
  intros Hd. unfold respond, normalized.
  rewrite run_bind, run_new_object. cbv beta iota.
  set (lb := fresh_loc h). set (h1 := <[lb := _]> h).
  assert (Hd1 : lookup_prop h1 err "data" = Some d).
  { eapply lookup_prop_weaken; [apply alloc_extends|done]. }
  rewrite run_bind, run_get_prop, Hd1. cbv beta iota.
  destruct (to_boolean d).
  - rewrite run_bind, run_bind, run_get_prop, Hd1. cbv beta iota.
    rewrite run_set_prop. unfold store_prop, h1. rewrite lookup_insert_eq.
    rewrite insert_insert_eq. cbv beta iota.
    eexists lb, _. split; [apply lookup_insert_eq|done].
  - rewrite run_bind, run_ret. cbv beta iota.
    eexists lb, h1. split; [apply lookup_insert_eq|done].
Qed.

End NormalizerClaims.

Section NormalizerTheorems.

Context (env : environment).

Lemma normalized_data sc errName errMessage d :
  normalized sc errName errMessage d !! "data"
  = if to_boolean d then Some d else None.
Proof. unfold normalized. by destruct (to_boolean d). Qed.

Lemma normalized_fields sc errName errMessage d :
  normalized sc errName errMessage d !! "statusCode" = Some sc ∧
  normalized sc errName errMessage d !! "error" = Some errName ∧
  normalized sc errName errMessage d !! "message" = Some errMessage.
Proof. unfold normalized. by destruct (to_boolean d). Qed.

Lemma prettyPrintErrors_body σ request reply l sc errName errMessage d :
  failure_response (st_heap σ) request (VRef l) →
  lookup_path (st_heap σ) (VRef l) ["output"; "payload"; "statusCode"] = Some sc →
  lookup_path (st_heap σ) (VRef l) ["output"; "payload"; "error"] = Some errName →
  lookup_prop (st_heap σ) (VRef l) "message" = Some errMessage →
  lookup_prop (st_heap σ) (VRef l) "data" = Some d →
  logging_keeps env request l →
  ∃ evs,
    st_trace (prettyPrintErrors env request reply σ).2 = st_trace σ ++ evs ∧
    replied reply evs = [Obj KPlain (normalized sc errName errMessage d)].
Proof.
  destruct σ as [h tr]. cbn [st_heap st_trace].
  intros Hf Hsc Hname Hmsg Hd Hlog.
  destruct (prettyPrintErrors_failure env h tr request reply _ sc Hf Hsc)
    as (errName' & errMessage' & stack0 & Hname' & Hmsg' & Hstack & ->).
  rewrite Hname in Hname'. rewrite Hmsg in Hmsg'.
  injection Hname' as <-. injection Hmsg' as <-.
  rewrite run_bind. unfold log_internal.
  destruct (strict_eq sc (VNum 500)).
  - assert (Hreq : require_object_coercible request = ret tt).
    { destruct Hf as [Hr _]. by destruct request. }
    rewrite Hreq, run_bind, run_ret. cbv beta iota.
    rewrite run_bind, run_new_array. cbv beta iota.
    set (lt := fresh_loc h). set (ht := <[lt := _]> h).
    rewrite run_bind, run_ext.
    destruct (Hlog tr (VRef lt) (or_else stack0 errMessage) ht) as (x & h' & -> & Hl).
    cbn [fst snd]. rewrite run_ret. cbv beta iota.
    assert (Hd' : lookup_prop h' (VRef l) "data" = Some d).
    { assert (Hdt : lookup_prop ht (VRef l) "data" = Some d).
      { eapply lookup_prop_weaken; [apply alloc_extends|done]. }
      simpl in Hdt |- *. by rewrite Hl. }
    set (ev := Event (Method request "log") _ ht).
    destruct (respond_run env h' (tr ++ [ev]) reply (VRef l)
                sc errName errMessage d Hd') as (lb & hb & Hb & ->).
    destruct (reply_and_code_run env reply lb _ sc hb (tr ++ [ev]) Hb)
      as (evs & -> & Hrep & _).
    exists (ev :: evs). rewrite <- app_assoc. split; [done|].
    by rewrite replied_other.
  - rewrite run_ret. cbv beta iota.
    destruct (respond_run env h tr reply (VRef l) sc errName errMessage d Hd)
      as (lb & hb & Hb & ->).
    destruct (reply_and_code_run env reply lb _ sc hb tr Hb) as (evs & -> & Hrep & _).
    by exists evs.
Qed.

(** C3: for a failure response, [request.log] is called exactly once when the
    status code of the failure is 500, and not at all for any other status
    code, whatever the collaborators do. *)
Theorem error_normalizer_logs_500_once σ request reply err sc :
  failure_response (st_heap σ) request err →
  lookup_path (st_heap σ) err ["output"; "payload"; "statusCode"] = Some sc →
  ∃ evs,
    st_trace (prettyPrintErrors env request reply σ).2 = st_trace σ ++ evs ∧
    count_calls (Method request "log") evs
    = if decide (sc = VNum 500) then 1%nat else 0%nat.
Proof.
  destruct σ as [h tr]. cbn [st_heap st_trace]. intros Hf Hsc.
  destruct (prettyPrintErrors_failure env h tr request reply _ sc Hf Hsc)
    as (errName & errMessage & stack0 & _ & _ & _ & ->).
  rewrite run_bind. unfold log_internal, strict_eq.
  destruct (decide (sc = VNum 500)) as [->|Hne].
  - rewrite bool_decide_eq_true_2 by done.
    assert (Hreq : require_object_coercible request = ret tt).
    { destruct Hf as [Hr _]. by destruct request. }
    rewrite Hreq, run_bind, run_ret. cbv beta iota.
    rewrite run_bind, run_new_array. cbv beta iota.
    set (lt := fresh_loc h). set (ht := <[lt := _]> h).
    rewrite run_bind, run_ext.
    set (ev := Event (Method request "log") _ ht).
    assert (Hev : count_calls (Method request "log") [ev] = 1%nat).
    { unfold count_calls. simpl. by rewrite bool_decide_eq_true_2. }
    destruct (env (tr ++ [ev])) as [[x|e] h']; cbn [fst snd].
    + rewrite run_ret. cbv beta iota.
      destruct (respond_no_log env request reply err (VNum 500) errName errMessage
                  (State h' (tr ++ [ev]))) as (evs & -> & Hevs).
      cbn [st_trace]. exists ([ev] ++ evs). rewrite app_assoc. split; [done|].
      by rewrite count_calls_app, Hev, (count_calls_none _ _ Hevs).
    + exists [ev]. by split.
  - rewrite bool_decide_eq_false_2 by done. rewrite run_ret. cbv beta iota.
    destruct (respond_no_log env request reply err sc errName errMessage
                (State h tr)) as (evs & -> & Hevs).
    exists evs. split; [done|]. by apply count_calls_none.
Qed.

End NormalizerTheorems.

Section DataAndMessage.

Context (env : environment).

(** C4, as the code has it: the normalized body always has the status code,
    the error label and the message; it has the failure's [data], unchanged,
    when that value is truthy, and no [data] key when the failure has no
    [data] or a falsy one. *)
Theorem normalized_body_copies_truthy_data σ request reply l sc d :
  failure_response (st_heap σ) request (VRef l) →
  lookup_path (st_heap σ) (VRef l) ["output"; "payload"; "statusCode"] = Some sc →
  lookup_prop (st_heap σ) (VRef l) "data" = Some d →
  logging_keeps env request l →
  ∃ evs body,
    st_trace (prettyPrintErrors env request reply σ).2 = st_trace σ ++ evs ∧
    replied reply evs = [body] ∧
    props body !! "data" = (if to_boolean d then Some d else None) ∧
    props body !! "statusCode" = Some sc ∧
    is_Some (props body !! "error") ∧
    is_Some (props body !! "message").
Proof.
  intros Hf Hsc Hd Hlog.
  destruct σ as [h tr].
  destruct (prettyPrintErrors_failure env h tr request reply _ sc Hf Hsc)
    as (errName & errMessage & _ & Hname & Hmsg & _ & _).
  destruct (prettyPrintErrors_body env (State h tr) request reply l sc errName
              errMessage d Hf Hsc Hname Hmsg Hd Hlog) as (evs & Htr & Hrep).
  destruct (normalized_fields sc errName errMessage d) as (Hs & He & Hm).
  exists evs, (Obj KPlain (normalized sc errName errMessage d)).
  cbn [props]. rewrite normalized_data, Hs, He, Hm. eauto 10.
Qed.

(** C10: the message of the normalized body is the failure's own top-level
    [message], not the message of its output payload; the error label and the
    status code are those of the payload. *)
Theorem normalized_message_is_top_level
    σ request reply l sc label payload_message message :
  failure_response (st_heap σ) request (VRef l) →
  lookup_path (st_heap σ) (VRef l) ["output"; "payload"; "statusCode"] = Some sc →
  lookup_path (st_heap σ) (VRef l) ["output"; "payload"; "error"] = Some label →
  lookup_path (st_heap σ) (VRef l) ["output"; "payload"; "message"]
  = Some payload_message →
  lookup_prop (st_heap σ) (VRef l) "message" = Some message →
  logging_keeps env request l →
  ∃ evs body,
    st_trace (prettyPrintErrors env request reply σ).2 = st_trace σ ++ evs ∧
    replied reply evs = [body] ∧
    props body !! "message" = Some message ∧
    props body !! "error" = Some label ∧
    props body !! "statusCode" = Some sc ∧
    (payload_message ≠ message → props body !! "message" ≠ Some payload_message).
Proof.
  intros Hf Hsc Hlabel _ Hmsg Hlog.
  destruct (lookup_prop_defined _ _ _ _ "data" Hmsg) as [d Hd].
  destruct (prettyPrintErrors_body env σ request reply l sc label message d
              Hf Hsc Hlabel Hmsg Hd Hlog) as (evs & Htr & Hrep).
  destruct (normalized_fields sc label message d) as (Hs & He & Hm).
  exists evs, (Obj KPlain (normalized sc label message d)).
  cbn [props]. rewrite Hs, He, Hm. do 5 (split; [done|]). congruence.
Qed.

End DataAndMessage.

(** ** The bootstrap *)

Section Bootstrap.

Context (env : environment) (prettyPrintErrors_fn : value).

Implicit Types (h : heap) (tr : list event) (v : value) (σ : state).

Lemma promise_state_coercible h p st :
  promise_state h p = Some st → require_object_coercible p = ret tt.
Proof. by destruct p. Qed.

Lemma promise_state_insert h l st ps :
  promise_state (<[l := Obj (KPromise st) ps]> h) (VRef l) = Some st.
Proof. unfold promise_state. by rewrite lookup_insert_eq. Qed.

Lemma settled_insert h l st ps :
  settled (<[l := Obj (KPromise st) ps]> h) (VRef l) = st.
Proof. unfold settled. by rewrite promise_state_insert. Qed.

Lemma configure_never_starts config :
  emits (λ e, is_method_call "start" e = false)
        (configure env prettyPrintErrors_fn config).
Proof.
  unfold configure, cors, corsOrigins, new_object, new_array. emits_auto; done.
Qed.

Lemma emits_run {A} P (m : M A) σ r σ' :
  emits P m → m σ = (r, σ') → ∃ evs, st_trace σ' = st_trace σ ++ evs ∧ Forall P evs.
Proof. intros Hm Hr. specialize (Hm σ). by rewrite Hr in Hm. Qed.

(** C1: for every configuration, when the promise of the plugin registrar is
    rejected with an error, the promise the bootstrap returns is rejected
    with that same error, and no [start] is called on anything. *)
Theorem registration_failure_rejects_bootstrap σ config server σ1 registered σ2 e :
  configure env prettyPrintErrors_fn config σ = (Ok server, σ1) →
  ext env (Import "./registerPlugins" "") [server; config] σ1 = (Ok registered, σ2) →
  promise_state (st_heap σ2) registered = Some (Rejected e) →
  ∃ p σ',
    module_exports env prettyPrintErrors_fn config σ = (Ok p, σ') ∧
    promise_state (st_heap σ') p = Some (Rejected e) ∧
    ∃ evs, st_trace σ' = st_trace σ ++ evs ∧
           Forall (λ ev, is_method_call "start" ev = false) evs.
Proof.
  intros Hconf Hreg Hrej. unfold module_exports.
  rewrite run_bind, Hconf, run_bind, Hreg.
  unfold promise_then.
  rewrite (promise_state_coercible _ _ _ Hrej), run_bind, run_ret, Hrej.
  destruct σ2 as [h2 tr2]. rewrite run_new_promise.
  eexists _, _. split; [done|]. cbn [st_heap st_trace].
  split; [apply promise_state_insert|].
  destruct (emits_run _ _ _ _ _ (configure_never_starts config) Hconf)
    as (evs1 & E1 & F1).
  destruct σ1 as [h1 tr1]. rewrite run_ext in Hreg.
  injection Hreg as _ _ <-. cbn [st_trace] in E1. subst tr1.
  eexists. rewrite <- app_assoc. split; [done|].
  apply Forall_app. split; [done|]. by apply Forall_singleton.
Qed.

(** Once the registration has settled well, the bootstrap returns a promise
    that settles as the continuation does. *)
Lemma bootstrap_after_registration σ config server σ1 registered σ2 v :
  configure env prettyPrintErrors_fn config σ = (Ok server, σ1) →
  ext env (Import "./registerPlugins" "") [server; config] σ1 = (Ok registered, σ2) →
  promise_state (st_heap σ2) registered = Some (Fulfilled v) →
  module_exports env prettyPrintErrors_fn config σ
  = match onRegistered env server σ2 with
    | (Ok r, σ') => new_promise (settled (st_heap σ') r) σ'
    | (Throw e, σ') => new_promise (Rejected e) σ'
    end.
Proof.
  intros Hconf Hreg Hful. unfold module_exports.
  rewrite run_bind, Hconf, run_bind, Hreg. unfold promise_then.
  by rewrite (promise_state_coercible _ _ _ Hful), run_bind, run_ret, Hful.
Qed.

(** What the report of a start failure settles to: the answer of the
    logger. *)
Lemma start_failure_report server σ3 started h4 tr4 e :
  call_method env server "start" [] σ3 = (Ok started, State h4 tr4) →
  promise_state h4 started = Some (Rejected e) →
  ∃ h5,
    h4 ⊆ h5 ∧
    start_and_report env server σ3
    = match env (tr4 ++ [Event (Import "screwdriver-logger" "error")
                               [VStr "Failed to start server"; e] h5]) with
      | (Ok r, h6) =>
          new_promise (settled h6 r)
            (State h6 (tr4 ++ [Event (Import "screwdriver-logger" "error")
                                     [VStr "Failed to start server"; e] h5]))
      | (Throw e', h6) =>
          new_promise (Rejected e')
            (State h6 (tr4 ++ [Event (Import "screwdriver-logger" "error")
                                     [VStr "Failed to start server"; e] h5]))
      end.
Proof.
  intros Hstart Hrej. unfold start_and_report. rewrite run_bind, Hstart.
  rewrite run_bind. unfold promise_then.
  rewrite (promise_state_coercible _ _ _ Hrej), run_bind, run_ret.
  cbn [st_heap]. rewrite Hrej, run_new_promise.
  set (lr := fresh_loc h4). set (h5 := <[lr := _]> h4).
  exists h5. split; [apply alloc_extends|].
  unfold promise_catch. cbn [require_object_coercible].
  rewrite run_bind, run_ret. cbn [st_heap]. unfold h5 at 1.
  rewrite promise_state_insert. rewrite run_ext.
  by destruct (env _) as [[r|e'] h6].
Qed.

(** C2, as the code has it: for every configuration, when registration
    succeeds and the wiring is done but the promise of [server.start()] is
    rejected, the error is logged, by one call of the logger's [error] with
    the message "Failed to start server" and the error, and the promise the
    bootstrap returns settles to what that call gives: it is resolved with
    the value the logger returned, whatever that is, and rejected only when
    the logging itself fails. *)
Theorem start_failure_settles_as_logging_does
    σ config server σ1 registered σ2 v σ3 started σ4 e :
  configure env prettyPrintErrors_fn config σ = (Ok server, σ1) →
  ext env (Import "./registerPlugins" "") [server; config] σ1 = (Ok registered, σ2) →
  promise_state (st_heap σ2) registered = Some (Fulfilled v) →
  wiring env server σ2 = (Ok tt, σ3) →
  call_method env server "start" [] σ3 = (Ok started, σ4) →
  promise_state (st_heap σ4) started = Some (Rejected e) →
  ∃ p σ' h,
    module_exports env prettyPrintErrors_fn config σ = (Ok p, σ') ∧
    st_trace σ' = st_trace σ4 ++
                  [Event (Import "screwdriver-logger" "error")
                         [VStr "Failed to start server"; e] h] ∧
    promise_state (st_heap σ') p
    = Some (match env (st_trace σ4 ++
                       [Event (Import "screwdriver-logger" "error")
                              [VStr "Failed to start server"; e] h]) with
            | (Ok result, h') => settled h' result
            | (Throw e', _) => Rejected e'
            end).
Proof.
  intros Hconf Hreg Hful Hwire Hstart Hrej.
  rewrite (bootstrap_after_registration _ _ _ _ _ _ _ Hconf Hreg Hful).
  unfold onRegistered. rewrite run_bind, Hwire.
  destruct σ4 as [h4 tr4]. cbn [st_heap st_trace] in *.
  destruct (start_failure_report _ _ _ _ _ _ Hstart Hrej) as (h5 & _ & ->).
  set (ev := Event (Import "screwdriver-logger" "error") _ h5).
  destruct (env (tr4 ++ [ev])) as [[result|e'] h6] eqn:Hlog.
  - rewrite run_new_promise. cbn [st_heap]. rewrite settled_insert, run_new_promise.
    eexists _, _, h5. split; [done|]. cbn [st_heap st_trace]. split; [done|].
    fold ev. rewrite Hlog. apply promise_state_insert.
  - rewrite run_new_promise. cbn [st_heap]. rewrite settled_insert, run_new_promise.
    eexists _, _, h5. split; [done|]. cbn [st_heap st_trace]. split; [done|].
    fold ev. rewrite Hlog. apply promise_state_insert.
Qed.

End Bootstrap.

(** ** Post-registration wiring *)

Section Wiring.

Context (env : environment).

Implicit Types (h : heap) (tr : list event) (v : value) (σ : state).

Lemma lookup_path_snoc h ks k v :
  lookup_path h v (ks ++ [k])
  = match lookup_path h v ks with
    | Some y => lookup_prop h y k
    | None => None
    end.
Proof.
  revert v. induction ks as [|k' ks IH]; intros v; simpl.
  - by destruct (lookup_prop h v k).
  - destruct (lookup_prop h v k'); [apply IH|done].
Qed.

Lemma lookup_path_app h ks ks' v :
  lookup_path h v (ks ++ ks')
  = match lookup_path h v ks with
    | Some y => lookup_path h y ks'
    | None => None
    end.
Proof.
  revert v. induction ks as [|k ks IH]; intros v; simpl; [done|].
  destruct (lookup_prop h v k); [apply IH|done].
Qed.

Lemma lookup_path_two h v k1 k2 x y :
  lookup_prop h v k1 = Some x → lookup_prop h x k2 = Some y →
  lookup_path h v [k1; k2] = Some y.
Proof. intros H1 H2. cbn [lookup_path]. by rewrite H1, H2. Qed.

Lemma closure_at_insert h l c ps :
  closure_at (<[l := Obj (KFun c) ps]> h) (VRef l) = Some c.
Proof. unfold closure_at. by rewrite lookup_insert_eq. Qed.

Lemma wire_build_domain server :
  wire_build server = wire_domain server "buildFactory" (TokenGenBuild server) "tokenGen".
Proof. done. Qed.

Lemma wire_job_domain server :
  wire_job server = wire_domain server "jobFactory" (TokenGenJob server) "userTokenGen".
Proof. done. Qed.

Lemma wire_domain_installs server factory c slot σ σ' :
  factory ≠ "apiUri" → factory ≠ "tokenGen" → factory ≠ slot →
  slot ≠ "app" → slot ≠ "executor" →
  wire_domain server factory c slot σ = (Ok tt, σ') →
  ∃ domain executor tokenGen,
    lookup_path (st_heap σ') server ["app"; factory] = Some domain ∧
    lookup_prop (st_heap σ') domain "tokenGen" = Some tokenGen ∧
    lookup_prop (st_heap σ') domain "executor" = Some executor ∧
    lookup_prop (st_heap σ') executor slot = Some tokenGen ∧
    closure_at (st_heap σ') tokenGen = Some c ∧
    st_trace σ' = st_trace σ ∧
    (∀ w k x, w ≠ domain → w ≠ executor →
              lookup_prop (st_heap σ) w k = Some x →
              lookup_prop (st_heap σ') w k = Some x) ∧
    (∀ w c', closure_at (st_heap σ) w = Some c' →
             closure_at (st_heap σ') w = Some c').
Proof.
  intros Hfa Hft Hfs Hsa Hse. destruct σ as [h tr]. unfold wire_domain.
  assert (Hf1 : "apiUri" ∉ ["app"; factory]).
  { rewrite !not_elem_of_cons. repeat split; [done|done|apply not_elem_of_nil]. }
  assert (Hf2 : "tokenGen" ∉ ["app"; factory]).
  { rewrite !not_elem_of_cons. repeat split; [done|done|apply not_elem_of_nil]. }
  assert (Hf3 : slot ∉ ["app"; factory]).
  { rewrite !not_elem_of_cons. repeat split; [done|done|apply not_elem_of_nil]. }
  assert (Hs1 : "executor" ≠ slot) by done.
  rewrite run_bind, run_get_path.
  destruct (lookup_path h server ["app"; factory]) as [d|] eqn:Hd; [|done].
  cbv beta iota. rewrite run_bind, run_get_path.
  destruct (lookup_path h server ["info"; "uri"]) as [uri|]; [|done].
  cbv beta iota. rewrite run_bind, run_set_prop.
  destruct (store_prop h d "apiUri" uri) as [h1|] eqn:Hst1; [|done].
  cbv beta iota. rewrite run_bind, run_get_path.
  rewrite (lookup_path_store_key _ _ _ _ _ _ _ Hst1 Hf1), Hd.
  cbv beta iota. rewrite run_bind, run_new_closure. cbv beta iota.
  set (lc := fresh_loc h1). set (h2 := <[lc := _]> h1).
  assert (Hh2 : h1 ⊆ h2) by apply alloc_extends.
  assert (Hd2 : lookup_path h2 server ["app"; factory] = Some d).
  { eapply lookup_path_weaken; [done|].
    by rewrite (lookup_path_store_key _ _ _ _ _ _ _ Hst1 Hf1). }
  rewrite run_bind, run_set_prop.
  destruct (store_prop h2 d "tokenGen" (VRef lc)) as [h3|] eqn:Hst2; [|done].
  cbv beta iota.
  assert (Hd3 : lookup_path h3 server ["app"; factory] = Some d).
  { by rewrite (lookup_path_store_key _ _ _ _ _ _ _ Hst2 Hf2). }
  assert (Hc3 : closure_at h3 (VRef lc) = Some c).
  { rewrite (closure_at_store _ _ _ _ _ _ Hst2). apply closure_at_insert. }
  rewrite run_bind, run_get_path.
  change ["app"; factory; "executor"] with (["app"; factory] ++ ["executor"]).
  rewrite lookup_path_snoc, Hd3.
  destruct (lookup_prop h3 d "executor") as [ex|] eqn:Hex; [|done].
  cbv beta iota. rewrite run_bind, run_get_path.
  change ["app"; factory; "tokenGen"] with (["app"; factory] ++ ["tokenGen"]).
  rewrite lookup_path_snoc, Hd3, (lookup_prop_store_same _ _ _ _ _ Hst2).
  cbv beta iota. rewrite run_set_prop.
  destruct (store_prop h3 ex slot (VRef lc)) as [h4|] eqn:Hst3; [|done].
  intros [= <-]. cbn [st_heap st_trace].
  exists d, ex, (VRef lc). repeat apply conj.
  - by rewrite (lookup_path_store_key _ _ _ _ _ _ _ Hst3 Hf3).
  - destruct (decide (slot = "tokenGen")) as [->|Hne].
    + destruct (decide (d = ex)) as [->|Hde].
      * apply (lookup_prop_store_same _ _ _ _ _ Hst3).
      * rewrite (lookup_prop_store_obj _ _ _ _ _ _ _ Hst3) by done.
        apply (lookup_prop_store_same _ _ _ _ _ Hst2).
    + rewrite (lookup_prop_store_key _ _ _ _ _ _ _ Hst3) by done.
      apply (lookup_prop_store_same _ _ _ _ _ Hst2).
  - by rewrite (lookup_prop_store_key _ _ _ _ _ _ _ Hst3).
  - apply (lookup_prop_store_same _ _ _ _ _ Hst3).
  - by rewrite (closure_at_store _ _ _ _ _ _ Hst3).
  - done.
  - intros w k x Hwd Hwe Hw.
    rewrite (lookup_prop_store_obj _ _ _ _ _ _ _ Hst3) by done.
    rewrite (lookup_prop_store_obj _ _ _ _ _ _ _ Hst2) by done.
    apply (lookup_prop_weaken h1); [done|].
    by rewrite (lookup_prop_store_obj _ _ _ _ _ _ _ Hst1).
  - intros w c' Hw.
    rewrite (closure_at_store _ _ _ _ _ _ Hst3), (closure_at_store _ _ _ _ _ _ Hst2).
    apply (closure_at_weaken h1); [done|].
    by rewrite (closure_at_store _ _ _ _ _ _ Hst1).
Qed.

(** The job-domain block leaves the build-domain wiring alone, the two domain
    services and their executors being four objects. *)
Lemma wire_job_keeps_build_generator
    σ1 server σ2 jobFactory jobExecutor buildFactory executor tokenGen c :
  wire_job server σ1 = (Ok tt, σ2) →
  lookup_path (st_heap σ2) server ["app"; "jobFactory"] = Some jobFactory →
  lookup_prop (st_heap σ2) jobFactory "executor" = Some jobExecutor →
  buildFactory ≠ jobFactory → buildFactory ≠ jobExecutor →
  executor ≠ jobFactory → executor ≠ jobExecutor →
  lookup_prop (st_heap σ1) buildFactory "tokenGen" = Some tokenGen →
  lookup_prop (st_heap σ1) executor "tokenGen" = Some tokenGen →
  closure_at (st_heap σ1) tokenGen = Some c →
  lookup_prop (st_heap σ2) buildFactory "tokenGen" = Some tokenGen ∧
  lookup_prop (st_heap σ2) executor "tokenGen" = Some tokenGen ∧
  closure_at (st_heap σ2) tokenGen = Some c.
Proof.
  rewrite wire_job_domain. intros Hw Hjf Hjex Hb1 Hb2 He1 He2 Htg Hex Hc.
  apply wire_domain_installs in Hw
    as (d & ex & _ & Hd & _ & Hdex & _ & _ & _ & Hframe & Hclos); [|done..].
  rewrite Hjf in Hd. injection Hd as <-.
  rewrite Hjex in Hdex. injection Hdex as <-.
  split; [|split]; [by apply Hframe..|by apply Hclos].
Qed.

(** The three writes of a wiring block, in order. *)
Lemma wire_domain_writes server factory c slot h tr σ' :
  factory ≠ "apiUri" → factory ≠ "tokenGen" →
  wire_domain server factory c slot (State h tr) = (Ok tt, σ') →
  ∃ d uri ex h1 h3 h4,
    lookup_path h server ["app"; factory] = Some d ∧
    lookup_path h server ["info"; "uri"] = Some uri ∧
    store_prop h d "apiUri" uri = Some h1 ∧
    store_prop (<[fresh_loc h1 := Obj (KFun c) ∅]> h1) d "tokenGen"
               (VRef (fresh_loc h1)) = Some h3 ∧
    lookup_prop h3 d "executor" = Some ex ∧
    store_prop h3 ex slot (VRef (fresh_loc h1)) = Some h4 ∧
    σ' = State h4 tr.
Proof.
  intros Hfa Hft. unfold wire_domain.
  assert (Hf1 : "apiUri" ∉ ["app"; factory]).
  { rewrite !not_elem_of_cons. repeat split; [done|done|apply not_elem_of_nil]. }
  assert (Hf2 : "tokenGen" ∉ ["app"; factory]).
  { rewrite !not_elem_of_cons. repeat split; [done|done|apply not_elem_of_nil]. }
  rewrite run_bind, run_get_path.
  destruct (lookup_path h server ["app"; factory]) as [d|] eqn:Hd; [|done].
  cbv beta iota. rewrite run_bind, run_get_path.
  destruct (lookup_path h server ["info"; "uri"]) as [uri|]; [|done].
  cbv beta iota. rewrite run_bind, run_set_prop.
  destruct (store_prop h d "apiUri" uri) as [h1|] eqn:Hst1; [|done].
  cbv beta iota. rewrite run_bind, run_get_path.
  rewrite (lookup_path_store_key _ _ _ _ _ _ _ Hst1 Hf1), Hd.
  cbv beta iota. rewrite run_bind, run_new_closure. cbv beta iota.
  set (lc := fresh_loc h1). set (h2 := <[lc := _]> h1).
  assert (Hh2 : h1 ⊆ h2) by apply alloc_extends.
  rewrite run_bind, run_set_prop.
  destruct (store_prop h2 d "tokenGen" (VRef lc)) as [h3|] eqn:Hst2; [|done].
  cbv beta iota.
  assert (Hd3 : lookup_path h3 server ["app"; factory] = Some d).
  { rewrite (lookup_path_store_key _ _ _ _ _ _ _ Hst2 Hf2).
    eapply lookup_path_weaken; [done|].
    by rewrite (lookup_path_store_key _ _ _ _ _ _ _ Hst1 Hf1). }
  rewrite run_bind, run_get_path.
  change ["app"; factory; "executor"] with (["app"; factory] ++ ["executor"]).
  rewrite lookup_path_snoc, Hd3.
  destruct (lookup_prop h3 d "executor") as [ex|] eqn:Hex; [|done].
  cbv beta iota. rewrite run_bind, run_get_path.
  change ["app"; factory; "tokenGen"] with (["app"; factory] ++ ["tokenGen"]).
  rewrite lookup_path_snoc, Hd3, (lookup_prop_store_same _ _ _ _ _ Hst2).
  cbv beta iota. rewrite run_set_prop.
  destruct (store_prop h3 ex slot (VRef lc)) as [h4|] eqn:Hst3; [|done].
  intros [= <-]. by exists d, uri, ex, h1, h3, h4.
Qed.

(** What a wiring block leaves alone: every key but the three it writes,
    and every object but the domain service, its [slot] apart; and what it
    leaves behind: the address of the listener on the domain service. *)
Lemma wire_domain_frame server factory c slot σ σ' :
  factory ≠ "apiUri" → factory ≠ "tokenGen" → factory ≠ slot →
  slot ≠ "apiUri" → slot ≠ "app" →
  wire_domain server factory c slot σ = (Ok tt, σ') →
  ∃ d uri,
    lookup_path (st_heap σ) server ["info"; "uri"] = Some uri ∧
    lookup_path (st_heap σ') server ["app"; factory] = Some d ∧
    lookup_prop (st_heap σ') d "apiUri" = Some uri ∧
    (∀ w ks x, "apiUri" ∉ ks → "tokenGen" ∉ ks → slot ∉ ks →
               lookup_path (st_heap σ) w ks = Some x →
               lookup_path (st_heap σ') w ks = Some x) ∧
    (∀ w k x, w ≠ d → k ≠ slot →
              lookup_prop (st_heap σ) w k = Some x →
              lookup_prop (st_heap σ') w k = Some x) ∧
    (∀ w, lookup_prop (st_heap σ) w "apiUri" = Some uri →
          lookup_prop (st_heap σ') w "apiUri" = Some uri).
Proof.
  intros Hfa Hft Hfs Hsu Hsa Hw. destruct σ as [h tr].
  apply wire_domain_writes in Hw
    as (d & uri & ex & h1 & h3 & h4 & Hd & Huri & Hst1 & Hst2 & Hex & Hst3 & ->);
    [|done..].
  cbn [st_heap]. exists d, uri.
  assert (Hpath : ∀ w ks x, "apiUri" ∉ ks → "tokenGen" ∉ ks → slot ∉ ks →
                            lookup_path h w ks = Some x → lookup_path h4 w ks = Some x).
  { intros w ks x H1 H2 H3 Hl.
    rewrite (lookup_path_store_key _ _ _ _ _ _ _ Hst3 H3).
    rewrite (lookup_path_store_key _ _ _ _ _ _ _ Hst2 H2).
    eapply lookup_path_weaken; [apply alloc_extends|].
    by rewrite (lookup_path_store_key _ _ _ _ _ _ _ Hst1 H1). }
  assert (Hset : lookup_prop h4 d "apiUri" = Some uri).
  { rewrite (lookup_prop_store_key _ _ _ _ _ _ _ Hst3) by done.
    rewrite (lookup_prop_store_key _ _ _ _ _ _ _ Hst2) by done.
    eapply lookup_prop_weaken; [apply alloc_extends|].
    apply (lookup_prop_store_same _ _ _ _ _ Hst1). }
  assert (Hobj : ∀ w k x, w ≠ d → k ≠ slot →
                          lookup_prop h w k = Some x → lookup_prop h4 w k = Some x).
  { intros w k x Hwd Hk Hl.
    rewrite (lookup_prop_store_key _ _ _ _ _ _ _ Hst3) by done.
    rewrite (lookup_prop_store_obj _ _ _ _ _ _ _ Hst2) by done.
    eapply lookup_prop_weaken; [apply alloc_extends|].
    by rewrite (lookup_prop_store_obj _ _ _ _ _ _ _ Hst1). }
  repeat apply conj; try done.
  - apply Hpath; [| |by rewrite !not_elem_of_cons; repeat split;
                          try done; apply not_elem_of_nil |done];
      rewrite !not_elem_of_cons; (repeat split; [done|done|apply not_elem_of_nil]).
  - intros w Hl. destruct (decide (w = d)) as [->|Hne]; [done|].
    by apply Hobj.
Qed.

End Wiring.

Section WiringTheorems.

Context (env : environment) (prettyPrintErrors_fn : value).

Implicit Types (h : heap) (tr : list event) (v : value) (σ : state).

Lemma not_nullish_coercible v : ¬ nullish v → require_object_coercible v = ret tt.
Proof. unfold nullish. destruct v; naive_solver. Qed.

Lemma call_function_closure f c args σ :
  closure_at (st_heap σ) f = Some c →
  call_function env f args σ = invoke_closure env c args σ.
Proof. intros H. unfold call_function. by rewrite H. Qed.

Lemma lookup_path_not_nullish h v k ks x :
  lookup_path h v (k :: ks) = Some x → ¬ nullish v.
Proof. intros H [-> | ->]; discriminate H. Qed.


(** The continuation of a successful registration decides how the promise of
    the bootstrap settles, and what the bootstrap calls. *)
Lemma bootstrap_continues σ config server σ1 registered σ2 v :
  configure env prettyPrintErrors_fn config σ = (Ok server, σ1) →
  ext env (Import "./registerPlugins" "") [server; config] σ1 = (Ok registered, σ2) →
  promise_state (st_heap σ2) registered = Some (Fulfilled v) →
  ∃ p σ',
    module_exports env prettyPrintErrors_fn config σ = (Ok p, σ') ∧
    st_trace σ' = st_trace (onRegistered env server σ2).2 ∧
    promise_state (st_heap σ') p
    = Some (match onRegistered env server σ2 with
            | (Ok r, σ3) => settled (st_heap σ3) r
            | (Throw e, _) => Rejected e
            end).
Proof.
  intros Hconf Hreg Hful.
  rewrite (bootstrap_after_registration _ _ _ _ _ _ _ _ _ Hconf Hreg Hful).
  destruct (onRegistered env server σ2) as [[r|e] [h3 tr3]];
    rewrite run_new_promise; eexists _, _; (split; [done|]);
    cbn [st_heap st_trace snd]; (split; [done|]); apply promise_state_insert.
Qed.

(** The two blocks run first, the registration of the shutdown task next,
    the start of the listener last. *)
Lemma onRegistered_run server σ2 σb σj :
  wire_build server σ2 = (Ok tt, σb) →
  wire_job server σb = (Ok tt, σj) →
  onRegistered env server σ2
  = match register_shutdown env server σj with
    | (Ok _, σ3) => start_and_report env server σ3
    | (Throw e, σ3) => (Throw e, σ3)
    end.
Proof.
  intros Hb Hj. unfold onRegistered, wiring.
  rewrite run_bind, run_bind, Hb. cbv beta iota. by rewrite run_bind, Hj.
Qed.

Lemma wiring_blocks server σ2 σ3 :
  wiring env server σ2 = (Ok tt, σ3) →
  ∃ σb σj,
    wire_build server σ2 = (Ok tt, σb) ∧
    wire_job server σb = (Ok tt, σj) ∧
    register_shutdown env server σj = (Ok tt, σ3).
Proof.
  unfold wiring. rewrite run_bind.
  destruct (wire_build server σ2) as [[[]|e] σb] eqn:Hb; [|done].
  cbv beta iota. rewrite run_bind.
  destruct (wire_job server σb) as [[[]|e] σj] eqn:Hj; [|done].
  cbv beta iota. intros Hr. exists σb, σj. by rewrite Hj.
Qed.

(** What the registration of the shutdown task does, by what it finds on
    [server.plugins]. *)
Lemma register_shutdown_run h tr server shutdown :
  lookup_path h server ["plugins"; "shutdown"] = Some shutdown →
  register_shutdown env server (State h tr)
  = if to_boolean shutdown then
      match lookup_prop h shutdown "handler" with
      | Some handler =>
          if callable h handler then
            (ext env (Method shutdown "handler")
                 [VRef (fresh_loc (<[fresh_loc h := Obj (KFun (CleanupTask server)) ∅]> h))] ;;
             ret tt)
              (State (<[fresh_loc (<[fresh_loc h := Obj (KFun (CleanupTask server)) ∅]> h) :=
                          Obj KPlain (list_to_map
                                        [("taskname", VStr "executor-queue-cleanup");
                                         ("task", VRef (fresh_loc h))])]>
                        (<[fresh_loc h := Obj (KFun (CleanupTask server)) ∅]> h)) tr)
          else
            (Throw VTypeError,
             State (<[fresh_loc (<[fresh_loc h := Obj (KFun (CleanupTask server)) ∅]> h) :=
                         Obj KPlain (list_to_map
                                       [("taskname", VStr "executor-queue-cleanup");
                                        ("task", VRef (fresh_loc h))])]>
                       (<[fresh_loc h := Obj (KFun (CleanupTask server)) ∅]> h)) tr)
      | None => (Throw VTypeError, State h tr)
      end
    else (Ok tt, State h tr).
Proof.
  intros Hsd. unfold register_shutdown.
  rewrite run_bind, run_get_path, Hsd. cbv beta iota.
  destruct (to_boolean shutdown); [|done].
  rewrite run_bind, run_get_path, Hsd. cbv beta iota.
  rewrite run_bind, run_get_prop.
  destruct (lookup_prop h shutdown "handler") as [handler|]; [|done].
  cbv beta iota. rewrite run_bind, run_is_callable. cbv beta iota.
  rewrite run_bind, run_new_closure. cbv beta iota.
  rewrite run_bind, run_new_object. cbv beta iota.
  by destruct (callable h handler).
Qed.

(** The start of the listener is a call of [start] on the server; what
    follows it is no registration of a task. *)
Lemma start_and_report_starts server s :
  ¬ nullish server →
  ∃ rest,
    st_trace (start_and_report env server s).2
    = st_trace s ++ Event (Method server "start") [] (st_heap s) :: rest ∧
    Forall (λ ev, is_method_call "handler" ev = false) rest.
Proof.
  intros Hs. destruct s as [h tr]. cbn [st_heap st_trace].
  unfold start_and_report, call_method.
  rewrite (not_nullish_coercible _ Hs), run_bind, run_bind, run_ret.
  cbv beta iota. rewrite run_ext.
  set (ev := Event (Method server "start") [] h).
  destruct (env (tr ++ [ev])) as [[started|e] h']; cbn [fst snd].
  - lazymatch goal with
    | |- ∃ rest, st_trace (?m ?σ0).2 = _ ∧ _ =>
        assert (emits (λ ev, is_method_call "handler" ev = false) m) as Hem
          by (apply emits_bind;
              [ apply emits_promise_then; [intros ?; apply emits_ret | done]
              | intros ?; apply emits_promise_catch;
                [intros ?; by apply emits_ext | done] ]);
        destruct (Hem σ0) as (rest & E & F)
    end.
    exists rest. cbn [st_trace] in E. by rewrite E, <- app_assoc.
  - by exists [].
Qed.

(** After the wiring the bootstrap makes a call, the registration of the
    shutdown task or else the start of the listener, and makes it in the
    store the two blocks left, new objects apart. *)
Lemma first_call_after_wiring σ config server σ1 registered σ2 v σ3 :
  configure env prettyPrintErrors_fn config σ = (Ok server, σ1) →
  ext env (Import "./registerPlugins" "") [server; config] σ1 = (Ok registered, σ2) →
  promise_state (st_heap σ2) registered = Some (Fulfilled v) →
  wiring env server σ2 = (Ok tt, σ3) →
  ∃ p σ' call rest σb σj,
    module_exports env prettyPrintErrors_fn config σ = (Ok p, σ') ∧
    st_trace σ' = st_trace σ2 ++ call :: rest ∧
    wire_build server σ2 = (Ok tt, σb) ∧
    wire_job server σb = (Ok tt, σj) ∧
    st_heap σj ⊆ ev_heap call.
Proof.
  intros Hconf Hreg Hful Hwire.
  destruct (bootstrap_continues _ _ _ _ _ _ _ Hconf Hreg Hful) as (p & σ' & Hrun & Htr & _).
  destruct (wiring_blocks _ _ _ Hwire) as (σb & σj & Hb & Hj & Hsd).
  rewrite (onRegistered_run _ _ _ _ Hb Hj), Hsd in Htr.
  pose proof Hb as Hb'. rewrite wire_build_domain in Hb'.
  apply wire_domain_installs in Hb' as (d & _ & _ & Hd & _ & _ & _ & _ & Htrb & _);
    [|done..].
  pose proof Hj as Hj'. rewrite wire_job_domain in Hj'.
  apply wire_domain_installs in Hj' as (_ & _ & _ & _ & _ & _ & _ & _ & Htrj & _);
    [|done..].
  assert (Hsrv : ¬ nullish server) by exact (lookup_path_not_nullish _ _ _ _ _ Hd).
  destruct (start_and_report_starts server σ3 Hsrv) as (rest & Hstart & _).
  rewrite Hstart in Htr. clear Hstart.
  destruct σj as [hj trj]. cbn [st_heap st_trace] in *.
  assert (Htr2 : trj = st_trace σ2) by congruence.
  destruct (lookup_path hj server ["plugins"; "shutdown"]) as [shutdown|] eqn:Hshut.
  - rewrite (register_shutdown_run _ _ _ _ Hshut) in Hsd.
    destruct (to_boolean shutdown).
    + destruct (lookup_prop hj shutdown "handler") as [handler|]; [|done].
      destruct (callable hj handler); [|done].
      rewrite run_bind, run_ext in Hsd.
      set (h1 := <[fresh_loc hj := _]> hj) in *.
      set (h2 := <[fresh_loc h1 := _]> h1) in *.
      set (ev := Event (Method shutdown "handler") _ h2) in *.
      destruct (env (trj ++ [ev])) as [[r|e] h3]; [|done].
      cbn [fst snd] in Hsd. rewrite run_ret in Hsd. injection Hsd as <-.
      cbn [st_heap st_trace] in Htr.
      exists p, σ', ev, (Event (Method server "start") [] h3 :: rest), σb, (State hj trj).
      split; [done|]. split.
      { rewrite Htr, <- Htr2, <- app_assoc. done. }
      split; [done|]. split; [done|].
      cbn [ev_heap ev st_heap]. transitivity h1; apply alloc_extends.
    + injection Hsd as <-. cbn [st_heap st_trace] in Htr.
      exists p, σ', (Event (Method server "start") [] hj), rest, σb, (State hj trj).
      split; [done|]. split; [by rewrite Htr, <- Htr2|]. by do 2 (split; [done|]).
  - unfold register_shutdown in Hsd. by rewrite run_bind, run_get_path, Hshut in Hsd.
Qed.

(** The two token generators share their shape too (l.136-139, l.143-146):
    [generateProfile] is called with a new array holding the scope, and
    [generateToken] with what it returned. *)
Lemma token_generator_run server auth subject scmContext metadata scope rest s :
  lookup_path (st_heap s) server ["plugins"; "auth"] = Some auth →
  ¬ nullish auth →
  ∃ scopes h1,
    array_elems h1 scopes = Some [VStr scope] ∧
    ∀ profile h2,
      env (st_trace s ++ [Event (Method auth "generateProfile")
                                [subject; scmContext; scopes; metadata] h1])
      = (Ok profile, h2) →
      (let! auth0 := get_path server ["plugins"; "auth"] in
       require_object_coercible auth0 ;;
       let! auth' := get_path server ["plugins"; "auth"] in
       require_object_coercible auth' ;;
       let! scopes := new_array [VStr scope] in
       let! profile := ext env (Method auth' "generateProfile")
                           [subject; scmContext; scopes; metadata] in
       ext env (Method auth0 "generateToken") (profile :: rest)) s
      = ext env (Method auth "generateToken") (profile :: rest)
            (State h2 (st_trace s ++ [Event (Method auth "generateProfile")
                                            [subject; scmContext; scopes; metadata] h1])).
Proof.
  intros Hauth Hnn. destruct s as [h tr]. cbn [st_heap st_trace] in *.
  eexists (VRef (fresh_loc h)), _. split; [apply array_elems_insert|].
  intros profile h2 Henv.
  rewrite run_bind, run_get_path, Hauth. cbv beta iota.
  rewrite (not_nullish_coercible _ Hnn), run_bind, run_ret. cbv beta iota.
  rewrite run_bind, run_get_path, Hauth. cbv beta iota.
  rewrite (not_nullish_coercible _ Hnn), run_bind, run_ret. cbv beta iota.
  rewrite run_bind, run_new_array. cbv beta iota.
  by rewrite run_bind, run_ext, Henv.
Qed.

(** C7, as the code has it: after a successful registration, when the
    bootstrap makes its next call (the registration of the shutdown task, or
    else the start of the listener), [buildFactory.tokenGen] and
    [buildFactory.executor.tokenGen] are one function, provided the job-domain
    service is neither the build-domain service nor its executor; called with
    (buildId, metadata, scmContext, expiresIn) the function calls
    [generateProfile] of the auth capability with buildId, scmContext,
    ["temporal"] and metadata, then [generateToken] with the profile returned
    and expiresIn, and returns what that call returns. *)
Theorem build_token_generator_wired
    σ config server σ1 registered σ2 v σ3 buildFactory executor jobFactory :
  configure env prettyPrintErrors_fn config σ = (Ok server, σ1) →
  ext env (Import "./registerPlugins" "") [server; config] σ1 = (Ok registered, σ2) →
  promise_state (st_heap σ2) registered = Some (Fulfilled v) →
  wiring env server σ2 = (Ok tt, σ3) →
  lookup_path (st_heap σ2) server ["app"; "buildFactory"] = Some buildFactory →
  lookup_prop (st_heap σ2) buildFactory "executor" = Some executor →
  lookup_path (st_heap σ2) server ["app"; "jobFactory"] = Some jobFactory →
  buildFactory ≠ jobFactory → executor ≠ jobFactory →
  ∃ p σ' call rest tokenGen,
    module_exports env prettyPrintErrors_fn config σ = (Ok p, σ') ∧
    st_trace σ' = st_trace σ2 ++ call :: rest ∧
    lookup_path (ev_heap call) server ["app"; "buildFactory"] = Some buildFactory ∧
    lookup_prop (ev_heap call) buildFactory "tokenGen" = Some tokenGen ∧
    lookup_prop (ev_heap call) buildFactory "executor" = Some executor ∧
    lookup_prop (ev_heap call) executor "tokenGen" = Some tokenGen ∧
    closure_at (ev_heap call) tokenGen = Some (TokenGenBuild server) ∧
    ∀ s buildId metadata scmContext expiresIn auth,
      closure_at (st_heap s) tokenGen = Some (TokenGenBuild server) →
      lookup_path (st_heap s) server ["plugins"; "auth"] = Some auth →
      ¬ nullish auth →
      ∃ scopes h1,
        array_elems h1 scopes = Some [VStr "temporal"] ∧
        ∀ profile h2,
          env (st_trace s ++ [Event (Method auth "generateProfile")
                                    [buildId; scmContext; scopes; metadata] h1])
          = (Ok profile, h2) →
          call_function env tokenGen [buildId; metadata; scmContext; expiresIn] s
          = ext env (Method auth "generateToken") [profile; expiresIn]
                (State h2 (st_trace s ++ [Event (Method auth "generateProfile")
                                                [buildId; scmContext; scopes; metadata]
                                                h1])).
Proof.
  intros Hconf Hreg Hful Hwire Hbf Hbex Hjf Hne1 Hne2.
  destruct (first_call_after_wiring _ _ _ _ _ _ _ _ Hconf Hreg Hful Hwire)
    as (p & σ' & call & rest & σb & σj & Hrun & Htr & Hb & Hj & Hsub).
  rewrite wire_build_domain in Hb. rewrite wire_job_domain in Hj.
  pose proof Hb as Hb'.
  apply wire_domain_installs in Hb'
    as (d & ex & tg & Hd & Htg & Hex & Hslot & Hc & _); [|done..].
  apply wire_domain_frame in Hb as (_ & _ & _ & _ & _ & Hpath1 & _ & _); [|done..].
  assert (Hkeys : ∀ k1 k2 : string,
            k1 ≠ "apiUri" → k1 ≠ "tokenGen" → k1 ≠ "userTokenGen" →
            k2 ≠ "apiUri" → k2 ≠ "tokenGen" → k2 ≠ "userTokenGen" →
            ("apiUri" ∉ [k1; k2]) ∧ ("tokenGen" ∉ [k1; k2]) ∧ ("userTokenGen" ∉ [k1; k2])).
  { intros k1 k2 ? ? ? ? ? ?. rewrite !not_elem_of_cons.
    repeat split; try done; apply not_elem_of_nil. }
  assert (Hkey : ∀ k1 : string,
            k1 ≠ "apiUri" → k1 ≠ "tokenGen" → k1 ≠ "userTokenGen" →
            ("apiUri" ∉ [k1]) ∧ ("tokenGen" ∉ [k1]) ∧ ("userTokenGen" ∉ [k1])).
  { intros k1 ? ? ?. rewrite !not_elem_of_cons.
    repeat split; try done; apply not_elem_of_nil. }
  destruct (Hkeys "app" "buildFactory") as (Ka1 & Ka2 & Ka3); [done..|].
  destruct (Hkeys "app" "jobFactory") as (Kj1 & Kj2 & Kj3); [done..|].
  destruct (Hkey "executor") as (Ke1 & Ke2 & Ke3); [done..|].
  assert (d = buildFactory) as ->.
  { pose proof (Hpath1 _ _ _ Ka1 Ka2 Ka2 Hbf) as H. congruence. }
  assert (ex = executor) as ->.
  { assert (lookup_path (st_heap σ2) buildFactory ["executor"] = Some executor) as H
      by (cbn [lookup_path]; by rewrite Hbex).
    apply (Hpath1 _ _ _ Ke1 Ke2 Ke2) in H. cbn [lookup_path] in H.
    rewrite Hex in H. congruence. }
  pose proof (Hpath1 _ _ _ Kj1 Kj2 Kj2 Hjf) as Hjf1.
  pose proof Hj as Hj'.
  apply wire_domain_installs in Hj'
    as (_ & _ & _ & _ & _ & _ & _ & _ & _ & _ & Hclos); [|done..].
  apply wire_domain_frame in Hj as (d' & _ & _ & Hd' & _ & Hpath2 & Hobj & _); [|done..].
  assert (d' = jobFactory) as ->.
  { pose proof (Hpath2 _ _ _ Kj1 Kj2 Kj3 Hjf1) as H. congruence. }
  exists p, σ', call, rest, tg. split; [done|]. split; [done|].
  split; [|split; [|split; [|split; [|split]]]].
  - apply (lookup_path_weaken _ _ _ _ _ Hsub). by apply Hpath2.
  - apply (lookup_prop_weaken _ _ _ _ _ Hsub). by apply Hobj.
  - apply (lookup_prop_weaken _ _ _ _ _ Hsub). by apply Hobj.
  - apply (lookup_prop_weaken _ _ _ _ _ Hsub). by apply Hobj.
  - apply (closure_at_weaken _ _ _ _ Hsub). by apply Hclos.
  - intros s b m sc x auth Hcs Hauth Hnn.
    destruct (token_generator_run server auth b sc m "temporal" [x] s Hauth Hnn)
      as (scopes & h1 & Harr & Hcall).
    exists scopes, h1. split; [done|]. intros profile h2 Henv.
    rewrite (call_function_closure _ _ _ _ Hcs). by apply Hcall.
Qed.

(** C8: after a successful registration, when the bootstrap makes its next
    call (the registration of the shutdown task, or else the start of the
    listener), [jobFactory.tokenGen] and [jobFactory.executor.userTokenGen]
    are one function; called with (username, metadata, scmContext) it calls
    [generateProfile] with username, scmContext, ["user"] and metadata, then
    [generateToken] with the profile alone. *)
Theorem job_token_generator_wired σ config server σ1 registered σ2 v σ3 :
  configure env prettyPrintErrors_fn config σ = (Ok server, σ1) →
  ext env (Import "./registerPlugins" "") [server; config] σ1 = (Ok registered, σ2) →
  promise_state (st_heap σ2) registered = Some (Fulfilled v) →
  wiring env server σ2 = (Ok tt, σ3) →
  ∃ p σ' call rest jobFactory executor tokenGen,
    module_exports env prettyPrintErrors_fn config σ = (Ok p, σ') ∧
    st_trace σ' = st_trace σ2 ++ call :: rest ∧
    lookup_path (ev_heap call) server ["app"; "jobFactory"] = Some jobFactory ∧
    lookup_prop (ev_heap call) jobFactory "tokenGen" = Some tokenGen ∧
    lookup_prop (ev_heap call) jobFactory "executor" = Some executor ∧
    lookup_prop (ev_heap call) executor "userTokenGen" = Some tokenGen ∧
    closure_at (ev_heap call) tokenGen = Some (TokenGenJob server) ∧
    ∀ s username metadata scmContext auth,
      closure_at (st_heap s) tokenGen = Some (TokenGenJob server) →
      lookup_path (st_heap s) server ["plugins"; "auth"] = Some auth →
      ¬ nullish auth →
      ∃ scopes h1,
        array_elems h1 scopes = Some [VStr "user"] ∧
        ∀ profile h2,
          env (st_trace s ++ [Event (Method auth "generateProfile")
                                    [username; scmContext; scopes; metadata] h1])
          = (Ok profile, h2) →
          call_function env tokenGen [username; metadata; scmContext] s
          = ext env (Method auth "generateToken") [profile]
                (State h2 (st_trace s ++ [Event (Method auth "generateProfile")
                                                [username; scmContext; scopes; metadata]
                                                h1])).
Proof.
  intros Hconf Hreg Hful Hwire.
  destruct (first_call_after_wiring _ _ _ _ _ _ _ _ Hconf Hreg Hful Hwire)
    as (p & σ' & call & rest & σb & σj & Hrun & Htr & _ & Hj & Hsub).
  rewrite wire_job_domain in Hj.
  apply wire_domain_installs in Hj
    as (d & ex & tg & Hd & Htg & Hex & Hslot & Hc & _); [|done..].
  exists p, σ', call, rest, d, ex, tg. split; [done|]. split; [done|].
  split; [|split; [|split; [|split; [|split]]]].
  - by apply (lookup_path_weaken _ _ _ _ _ Hsub).
  - by apply (lookup_prop_weaken _ _ _ _ _ Hsub).
  - by apply (lookup_prop_weaken _ _ _ _ _ Hsub).
  - by apply (lookup_prop_weaken _ _ _ _ _ Hsub).
  - by apply (closure_at_weaken _ _ _ _ Hsub).
  - intros s u m sc auth Hcs Hauth Hnn.
    destruct (token_generator_run server auth u sc m "user" [] s Hauth Hnn)
      as (scopes & h1 & Harr & Hcall).
    exists scopes, h1. split; [done|]. intros profile h2 Henv.
    rewrite (call_function_closure _ _ _ _ Hcs). by apply Hcall.
Qed.



End WiringTheorems.

(** ** More on the error normalizer *)

Section NormalizerEdges.

Context (env : environment).

Implicit Types (h : heap) (tr : list event) (v : value) (σ : state).

(** X1: a response that is not a failure is passed through: the one thing
    the hook does is to call [reply.continue()], in the store as it found
    it, and it returns what that call returns. *)
Theorem non_failure_passes_through σ request reply response flag :
  lookup_prop (st_heap σ) request "response" = Some response →
  lookup_prop (st_heap σ) response "isBoom" = Some flag →
  to_boolean flag = false →
  ¬ nullish reply →
  prettyPrintErrors env request reply σ
  = ((env (st_trace σ ++ [Event (Method reply "continue") [] (st_heap σ)])).1,
     State (env (st_trace σ ++ [Event (Method reply "continue") [] (st_heap σ)])).2
           (st_trace σ ++ [Event (Method reply "continue") [] (st_heap σ)])).
Proof.
  destruct σ as [h tr]. cbn [st_heap st_trace]. intros Hresp Hflag Hfalse Hreply.
  unfold prettyPrintErrors.
  rewrite run_bind, run_get_prop, Hresp. cbv beta iota.
  rewrite run_bind, run_get_prop, Hflag. cbv beta iota. rewrite Hfalse.
  unfold call_method.
  by rewrite (not_nullish_coercible _ Hreply), run_bind, run_ret, run_ext.
Qed.

(** X2: the log record of an internal failure carries the tags
    ['server', 'error'] and, as its detail, the stack of the failure when it
    has one and its message otherwise; it is the first thing the hook does,
    in a store where nothing but the tag array is new. *)
Theorem internal_failure_log_record σ request reply err message stack :
  failure_response (st_heap σ) request err →
  lookup_path (st_heap σ) err ["output"; "payload"; "statusCode"] = Some (VNum 500) →
  lookup_prop (st_heap σ) err "message" = Some message →
  lookup_prop (st_heap σ) err "stack" = Some stack →
  ∃ tags evs,
    st_trace (prettyPrintErrors env request reply σ).2
    = st_trace σ ++
      Event (Method request "log")
            [tags; if to_boolean stack then stack else message]
            (<[fresh_loc (st_heap σ) :=
                 Obj (KArray [VStr "server"; VStr "error"]) ∅]> (st_heap σ))
      :: evs ∧
    tags = VRef (fresh_loc (st_heap σ)).
Proof.
  destruct σ as [h tr]. cbn [st_heap st_trace]. intros Hf Hsc Hmsg Hstack.
  destruct (prettyPrintErrors_failure env h tr request reply _ _ Hf Hsc)
    as (errName & errMessage & stack0 & _ & Hmsg' & Hstack' & ->).
  rewrite Hmsg in Hmsg'. injection Hmsg' as <-.
  rewrite Hstack in Hstack'. injection Hstack' as <-.
  rewrite run_bind. unfold log_internal, strict_eq.
  rewrite bool_decide_eq_true_2 by done.
  assert (Hreq : require_object_coercible request = ret tt).
  { destruct Hf as [Hr _]. by destruct request. }
  rewrite Hreq, run_bind, run_ret. cbv beta iota.
  rewrite run_bind, run_new_array. cbv beta iota.
  rewrite run_bind, run_ext. unfold or_else.
  set (ev := Event (Method request "log") _ _).
  destruct (env (tr ++ [ev])) as [[x|e] h']; cbn [fst snd].
  - rewrite run_ret. cbv beta iota.
    destruct (respond_no_log env request reply err (VNum 500) errName message
                (State h' (tr ++ [ev]))) as (evs & -> & _).
    cbn [st_trace]. exists (VRef (fresh_loc h)), evs.
    by rewrite <- app_assoc.
  - by exists (VRef (fresh_loc h)), [].
Qed.

(** X3: when logging the internal failure throws, the exception leaves the
    hook and nothing is sent: [reply] is not called. *)
Theorem logging_failure_prevents_reply σ request reply err e :
  failure_response (st_heap σ) request err →
  lookup_path (st_heap σ) err ["output"; "payload"; "statusCode"] = Some (VNum 500) →
  (∀ tr args h, (env (tr ++ [Event (Method request "log") args h])).1 = Throw e) →
  (prettyPrintErrors env request reply σ).1 = Throw e ∧
  ∃ evs,
    st_trace (prettyPrintErrors env request reply σ).2 = st_trace σ ++ evs ∧
    count_calls (Fn reply) evs = 0%nat ∧
    count_calls (Method request "log") evs = 1%nat.
Proof.
  destruct σ as [h tr]. cbn [st_heap st_trace]. intros Hf Hsc Hthrow.
  destruct (prettyPrintErrors_failure env h tr request reply _ _ Hf Hsc)
    as (errName & errMessage & stack0 & _ & _ & _ & ->).
  rewrite run_bind. unfold log_internal, strict_eq.
  rewrite bool_decide_eq_true_2 by done.
  assert (Hreq : require_object_coercible request = ret tt).
  { destruct Hf as [Hr _]. by destruct request. }
  rewrite Hreq, run_bind, run_ret. cbv beta iota.
  rewrite run_bind, run_new_array. cbv beta iota.
  rewrite run_bind, run_ext, Hthrow. cbn [fst snd].
  split; [done|]. eexists. split; [done|].
  unfold count_calls. cbn. by rewrite bool_decide_eq_true_2.
Qed.

(** X4: a failure whose output payload cannot be read (no [output], or no
    [payload] in it) makes the hook throw a TypeError before it has logged
    or sent anything. *)
Theorem failure_without_payload_throws σ request reply err :
  failure_response (st_heap σ) request err →
  lookup_path (st_heap σ) err ["output"; "payload"; "error"] = None →
  prettyPrintErrors env request reply σ = (Throw VTypeError, σ).
Proof.
  destruct σ as [h tr]. cbn [st_heap st_trace].
  intros (Hresp & b & Hb & Ht) Hnone. unfold prettyPrintErrors.
  rewrite run_bind, run_get_prop, Hresp. cbv beta iota.
  rewrite run_bind, run_get_prop, Hb. cbv beta iota. rewrite Ht.
  rewrite run_bind, run_get_prop, Hresp. cbv beta iota.
  by rewrite run_bind, run_get_path, Hnone.
Qed.

(** X5: once the body is built it is handed to [reply], nothing but logging
    having been called before; [code] is then called on what [reply] returned
    with the status code of the failure, and the hook returns what [code]
    returns.  When [reply] throws, so does the hook. *)
Theorem normalized_reply_sets_status σ request reply l sc :
  failure_response (st_heap σ) request (VRef l) →
  lookup_path (st_heap σ) (VRef l) ["output"; "payload"; "statusCode"] = Some sc →
  logging_keeps env request l →
  ∃ logged body h1,
    count_calls (Method request "log") logged = length logged ∧
    prettyPrintErrors env request reply σ
    = match env (st_trace σ ++ logged ++ [Event (Fn reply) [body] h1]) with
      | (Ok r, h2) =>
          call_method env r "code" [sc]
            (State h2 (st_trace σ ++ logged ++ [Event (Fn reply) [body] h1]))
      | (Throw e, h2) =>
          (Throw e, State h2 (st_trace σ ++ logged ++ [Event (Fn reply) [body] h1]))
      end.
Proof.
  destruct σ as [h tr]. cbn [st_heap st_trace]. intros Hf Hsc Hlog.
  destruct (prettyPrintErrors_failure env h tr request reply _ sc Hf Hsc)
    as (errName & errMessage & stack0 & Hname & Hmsg & _ & ->).
  destruct (lookup_prop_defined _ _ _ _ "data" Hmsg) as [d Hd].
  rewrite run_bind. unfold log_internal.
  destruct (strict_eq sc (VNum 500)).
  - assert (Hreq : require_object_coercible request = ret tt).
    { destruct Hf as [Hr _]. by destruct request. }
    rewrite Hreq, run_bind, run_ret. cbv beta iota.
    rewrite run_bind, run_new_array. cbv beta iota.
    set (lt := fresh_loc h). set (ht := <[lt := _]> h).
    rewrite run_bind, run_ext.
    destruct (Hlog tr (VRef lt) (or_else stack0 errMessage) ht) as (x & h' & -> & Hl).
    cbn [fst snd]. rewrite run_ret. cbv beta iota.
    assert (Hd' : lookup_prop h' (VRef l) "data" = Some d).
    { assert (Hdt : lookup_prop ht (VRef l) "data" = Some d).
      { eapply lookup_prop_weaken; [apply alloc_extends|done]. }
      simpl in Hdt |- *. by rewrite Hl. }
    set (ev := Event (Method request "log") _ ht).
    destruct (respond_run env h' (tr ++ [ev]) reply (VRef l)
                sc errName errMessage d Hd') as (lb & hb & Hb & ->).
    exists [ev], (VRef lb), hb. split.
    { unfold count_calls. cbn. by rewrite bool_decide_eq_true_2. }
    rewrite run_bind, run_ext, <- app_assoc.
    by destruct (env _) as [[r|e] h2].
  - rewrite run_ret. cbv beta iota.
    destruct (respond_run env h tr reply (VRef l) sc errName errMessage d Hd)
      as (lb & hb & Hb & ->).
    exists [], (VRef lb), hb. split; [done|]. cbn [app].
    rewrite run_bind, run_ext.
    by destruct (env _) as [[r|e] h2].
Qed.

End NormalizerEdges.

(** ** More on the CORS policy *)

Section CorsEdges.

Implicit Types (h : heap) (tr : list event) (v : value) (σ : state).

Lemma corsOrigins_inv σ config origins σ' :
  corsOrigins config σ = (Ok origins, σ') →
  st_trace σ' = st_trace σ ∧ st_heap σ ⊆ st_heap σ' ∧
  is_Some (array_elems (st_heap σ') origins).
Proof.
  destruct σ as [h tr]. unfold corsOrigins.
  rewrite run_bind, run_get_path.
  destruct (lookup_path h config ["ecosystem"; "ui"]) as [ui|]; [|done].
  cbv beta iota. rewrite run_bind, run_new_array. cbv beta iota.
  set (l1 := fresh_loc h). set (h1 := <[l1 := _]> h).
  assert (Hh1 : h ⊆ h1) by apply alloc_extends.
  rewrite run_bind, run_get_path.
  destruct (lookup_path h1 config ["ecosystem"; "allowCors"]) as [extra|]; [|done].
  cbv beta iota. rewrite run_bind, run_isArray. cbv beta iota.
  destruct (is_array h1 extra).
  - rewrite run_bind, run_get_path.
    destruct (lookup_path h1 config ["ecosystem"; "allowCors"]) as [extra'|]; [|done].
    cbv beta iota. unfold Array_concat. cbn [st_heap].
    unfold h1 at 1. rewrite array_elems_insert, run_new_array.
    intros [= <- <-]. cbn [st_heap st_trace]. split; [done|]. split.
    + transitivity h1; [done|]. apply alloc_extends.
    + rewrite array_elems_insert. by eexists.
  - rewrite run_ret. intros [= <- <-]. cbn [st_heap st_trace].
    split; [done|]. split; [done|]. unfold h1. rewrite array_elems_insert. by eexists.
Qed.

Lemma cors_inv σ config policy σ' :
  cors config σ = (Ok policy, σ') →
  st_trace σ' = st_trace σ ∧ st_heap σ ⊆ st_heap σ' ∧
  (∃ l, policy = VRef l ∧ st_heap σ !! l = None) ∧
  (∃ exposed, lookup_prop (st_heap σ') policy "additionalExposedHeaders" = Some exposed ∧
              array_elems (st_heap σ') exposed = Some [VStr "x-more-data"]) ∧
  lookup_prop (st_heap σ') policy "credentials" = Some (VBool true) ∧
  is_Some (cors_origins (st_heap σ') policy).
Proof.
  unfold cors. rewrite run_bind.
  destruct (corsOrigins config σ) as [[origins|e] [h1 tr1]] eqn:Ho; [|done].
  apply corsOrigins_inv in Ho as (Htr & Hsub & [es Hes]). cbn [st_heap st_trace] in *.
  rewrite run_bind, run_new_array. cbv beta iota.
  set (l2 := fresh_loc h1). set (h2 := <[l2 := _]> h1).
  assert (Hh2 : h1 ⊆ h2) by apply alloc_extends.
  rewrite run_new_object.
  set (l3 := fresh_loc h2). set (h3 := <[l3 := _]> h2).
  assert (Hh3 : h2 ⊆ h3) by apply alloc_extends.
  intros [= <- <-]. cbn [st_heap st_trace].
  split; [done|]. split; [by transitivity h1; [|transitivity h2]|].
  split; [|split; [|split]].
  - exists l3. split; [done|].
    destruct (st_heap σ !! l3) as [o|] eqn:E; [|done].
    assert (h2 !! l3 = Some o) as Hin.
    { eapply lookup_weaken; [exact E|]. by transitivity h1. }
    pose proof (fresh_loc_unused h2) as Hf. fold l3 in Hf. congruence.
  - exists (VRef l2). split.
    + unfold h3. by rewrite lookup_object.
    + apply (array_elems_weaken h2); [done|]. apply array_elems_insert.
  - unfold h3. by rewrite lookup_object.
  - unfold cors_origins, h3 at 1. rewrite lookup_object.
    change (default VUndefined _) with origins.
    exists es. apply (array_elems_weaken h1); [by transitivity h2|done].
Qed.

(** X6: every policy the builder returns exposes the one header
    [x-more-data] and allows credentials. *)
Theorem cors_policy_fixed_fields σ config policy σ' :
  cors config σ = (Ok policy, σ') →
  (∃ exposed, lookup_prop (st_heap σ') policy "additionalExposedHeaders" = Some exposed ∧
              array_elems (st_heap σ') exposed = Some [VStr "x-more-data"]) ∧
  lookup_prop (st_heap σ') policy "credentials" = Some (VBool true).
Proof. intros H. by destruct (cors_inv _ _ _ _ H) as (_ & _ & _ & He & Hc & _). Qed.

(** X7: building the policy calls no collaborator and changes no object that
    exists: the store grows by new objects, the policy among them, so the
    configured array of extra origins is left as it is. *)
Theorem cors_builder_is_pure σ config policy σ' :
  cors config σ = (Ok policy, σ') →
  st_trace σ' = st_trace σ ∧
  st_heap σ ⊆ st_heap σ' ∧
  ∃ l, policy = VRef l ∧ st_heap σ !! l = None.
Proof. intros H. by destruct (cors_inv _ _ _ _ H) as (Ht & Hs & Hl & _). Qed.

(** X8: the extra origins, however many, follow the UI origin in the order
    they are configured in. *)
Theorem cors_origins_in_order σ config ui extra extras :
  lookup_path (st_heap σ) config ["ecosystem"; "ui"] = Some ui →
  lookup_path (st_heap σ) config ["ecosystem"; "allowCors"] = Some extra →
  array_elems (st_heap σ) extra = Some extras →
  ∃ policy σ',
    cors config σ = (Ok policy, σ') ∧
    cors_origins (st_heap σ') policy = Some (ui :: extras).
Proof.
  intros Hui Hextra Harr.
  assert (Ha : allocated (st_heap σ) extra).
  { destruct extra; try done. simpl in *. by destruct (st_heap σ !! l). }
  destruct (cors_run σ config ui extra Hui Hextra Ha)
    as (policy & σ' & Hrun & _ & Ho).
  exists policy, σ'. by rewrite Ho, Harr.
Qed.

Lemma allocated_weaken h h' v : h ⊆ h' → allocated h v → allocated h' v.
Proof.
  intros Hsub. destruct v; try done. simpl. intros [o Ho].
  exists o. by eapply lookup_weaken.
Qed.

Lemma cors_origins_weaken h h' policy os :
  h ⊆ h' → cors_origins h policy = Some os → cors_origins h' policy = Some os.
Proof.
  intros Hsub. unfold cors_origins.
  destruct (lookup_prop h policy "origin") as [o|] eqn:E; [|done].
  rewrite (lookup_prop_weaken _ _ _ _ _ Hsub E). by apply array_elems_weaken.
Qed.

(** X9: building the policy twice on one configuration gives two policy
    objects with the same origins. *)
Theorem cors_builder_twice σ config ui extra :
  lookup_path (st_heap σ) config ["ecosystem"; "ui"] = Some ui →
  lookup_path (st_heap σ) config ["ecosystem"; "allowCors"] = Some extra →
  allocated (st_heap σ) extra →
  ∃ policy1 σ1 policy2 σ2,
    cors config σ = (Ok policy1, σ1) ∧
    cors config σ1 = (Ok policy2, σ2) ∧
    policy1 ≠ policy2 ∧
    cors_origins (st_heap σ2) policy1 = cors_origins (st_heap σ2) policy2 ∧
    is_Some (cors_origins (st_heap σ2) policy2).
Proof.
  intros Hui Hextra Ha.
  destruct (cors_run σ config ui extra Hui Hextra Ha)
    as (p1 & σ1 & Hrun1 & _ & Ho1).
  destruct (cors_inv _ _ _ _ Hrun1) as (_ & Hsub1 & _ & _ & _ & _).
  assert (Hui1 := lookup_path_weaken _ _ _ _ _ Hsub1 Hui).
  assert (Hextra1 := lookup_path_weaken _ _ _ _ _ Hsub1 Hextra).
  assert (Ha1 := allocated_weaken _ _ _ Hsub1 Ha).
  destruct (cors_run σ1 config ui extra Hui1 Hextra1 Ha1)
    as (p2 & σ2 & Hrun2 & _ & Ho2).
  destruct (cors_inv _ _ _ _ Hrun2) as (_ & Hsub2 & (l2 & -> & Hnew) & _ & _ & _).
  assert (array_elems (st_heap σ1) extra = array_elems (st_heap σ) extra) as Hsame.
  { destruct (array_elems (st_heap σ) extra) as [xs|] eqn:E.
    - by apply (array_elems_weaken (st_heap σ)).
    - by apply (array_elems_None_weaken (st_heap σ)). }
  rewrite Hsame in Ho2.
  exists p1, σ1, (VRef l2), σ2. split; [done|]. split; [done|]. split.
  - intros ->. unfold cors_origins in Ho1. simpl in Ho1. by rewrite Hnew in Ho1.
  - rewrite Ho2, (cors_origins_weaken _ _ _ _ Hsub2 Ho1). by split; [|eexists].
Qed.

End CorsEdges.

Section SynchronousFailure.

Context (env : environment) (prettyPrintErrors_fn : value).

(** X10: a configuration without an ecosystem makes the bootstrap throw a
    TypeError at once: no promise is returned, no server is constructed,
    nothing is called. *)
Theorem missing_ecosystem_throws σ config :
  lookup_path (st_heap σ) config ["ecosystem"; "ui"] = None →
  module_exports env prettyPrintErrors_fn config σ = (Throw VTypeError, σ).
Proof.
  destruct σ as [h tr]. cbn [st_heap]. intros Hnone.
  unfold module_exports, configure, cors, corsOrigins.
  by rewrite !run_bind, run_get_path, Hnone.
Qed.

End SynchronousFailure.

(** ** More on the bootstrap *)

Section ConfigureShape.

Context (env : environment) (prettyPrintErrors_fn : value).

Implicit Types (h : heap) (tr : list event) (v : value) (σ : state).

Lemma read_fields_inv v ks σ fields σ' :
  read_fields v ks σ = (Ok fields, σ') →
  σ' = σ ∧
  ∀ k, k ∈ ks →
    ∃ x, lookup_prop (st_heap σ) v k = Some x ∧
         (list_to_map fields : gmap string value) !! k = Some x.
Proof.
  destruct σ as [h tr]. revert fields σ'.
  induction ks as [|k0 ks IH]; intros fields σ'; simpl.
  - rewrite run_ret. intros [= <- <-]. split; [done|]. intros k Hk. inversion Hk.
  - rewrite run_bind, run_get_prop.
    destruct (lookup_prop h v k0) as [x0|] eqn:E0; [|done].
    cbv beta iota. rewrite run_bind.
    destruct (read_fields v ks (State h tr)) as [[rest|e] σr] eqn:Er; [|done].
    destruct (IH rest σr eq_refl) as [-> Hrest].
    rewrite run_ret. intros [= <- <-]. split; [done|].
    intros k Hk. cbn [st_heap]. simpl list_to_map.
    destruct (decide (k = k0)) as [->|Hne].
    + exists x0. by rewrite lookup_insert_eq.
    + apply elem_of_cons in Hk as [?|Hk]; [done|].
      destruct (Hrest k Hk) as (x & Hx & Hl). exists x.
      by rewrite lookup_insert_ne.
Qed.

Lemma app_not_copied : "app" ∉ app_keys.
Proof.
  unfold app_keys. repeat (apply not_elem_of_cons; split; [done|]).
  apply not_elem_of_nil.
Qed.

(** X11: up to the registration, the bootstrap calls, in this order and
    nothing else: the constructor of the Hapi server, with options that carry
    the CORS policy built from the configuration (that very object, with the
    origins computed for it), request logging and the stripping of trailing
    slashes; [connection] with [config.httpd]; [ext] to install
    [prettyPrintErrors] on 'onPreResponse'; [event] to declare
    'build_status'. *)
Theorem configure_calls σ config server σ1 :
  configure env prettyPrintErrors_fn config σ = (Ok server, σ1) →
  ∃ policy σc options h0 httpd h1 h2 h3,
    cors config σ = (Ok policy, σc) ∧
    st_heap σc ⊆ h0 ∧
    st_trace σ1
    = st_trace σ ++
      [Event (Construct "hapi" "Server") [options] h0;
       Event (Method server "connection") [httpd] h1;
       Event (Method server "ext") [VStr "onPreResponse"; prettyPrintErrors_fn] h2;
       Event (Method server "event") [VStr "build_status"] h3] ∧
    (env (st_trace σ ++ [Event (Construct "hapi" "Server") [options] h0])).1
    = Ok server ∧
    lookup_path h0 options ["connections"; "routes"; "cors"] = Some policy ∧
    cors_origins h0 policy = cors_origins (st_heap σc) policy ∧
    is_Some (cors_origins h0 policy) ∧
    lookup_path h0 options ["connections"; "routes"; "log"] = Some (VBool true) ∧
    lookup_path h0 options ["connections"; "router"; "stripTrailingSlash"]
    = Some (VBool true) ∧
    lookup_prop h1 config "httpd" = Some httpd.
Proof.
  unfold configure. rewrite run_bind.
  destruct (cors config σ) as [[policy|e] [hc trc]] eqn:Hc; [|done].
  apply cors_inv in Hc as (Htr & _ & _ & _ & _ & [os Hos]).
  cbn [st_heap st_trace] in *. subst trc.
  rewrite run_bind, run_new_object. cbv beta iota.
  set (lr := fresh_loc hc). set (hr := <[lr := _]> hc).
  rewrite run_bind, run_new_object. cbv beta iota.
  set (lt := fresh_loc hr). set (ht := <[lt := _]> hr).
  rewrite run_bind, run_new_object. cbv beta iota.
  set (ln := fresh_loc ht). set (hn := <[ln := _]> ht).
  rewrite run_bind, run_new_object. cbv beta iota.
  set (lo := fresh_loc hn). set (h0 := <[lo := _]> hn).
  assert (Hhr : hc ⊆ hr) by apply alloc_extends.
  assert (Hht : hr ⊆ ht) by apply alloc_extends.
  assert (Hhn : ht ⊆ hn) by apply alloc_extends.
  assert (Hh0 : hn ⊆ h0) by apply alloc_extends.
  rewrite run_bind, run_ext. set (ev0 := Event (Construct "hapi" "Server") _ h0).
  destruct (env (st_trace σ ++ [ev0])) as [[srv|e] hs] eqn:Hsrv; [|done].
  cbn [fst snd]. rewrite run_bind.
  destruct (read_fields config app_keys _) as [[fields|e] σf] eqn:Hf; [|done].
  apply read_fields_inv in Hf as [-> _].
  rewrite run_bind, run_new_object. cbv beta iota.
  rewrite run_bind, run_set_prop.
  destruct (store_prop _ srv "app" _) as [hb|] eqn:Hst; [|done].
  cbv beta iota.
  assert (Hcoerc : require_object_coercible srv = ret tt).
  { by destruct (store_prop_inv _ _ _ _ _ Hst) as (l & o & -> & _). }
  rewrite Hcoerc, run_bind, run_ret. cbv beta iota.
  rewrite run_bind, run_get_prop.
  destruct (lookup_prop hb config "httpd") as [httpd|] eqn:Hhttpd; [|done].
  cbv beta iota. rewrite run_bind, run_ext.
  set (ev1 := Event (Method srv "connection") _ _).
  destruct (env (_ ++ [ev1])) as [[r1|e] h1'] eqn:E1; [|done]. cbn [fst snd].
  unfold call_method. rewrite Hcoerc, run_bind, run_bind, run_ret. cbv beta iota.
  rewrite run_ext. set (ev2 := Event (Method srv "ext") _ _).
  destruct (env (_ ++ [ev2])) as [[r2|e] h2'] eqn:E2; [|done]. cbn [fst snd].
  rewrite run_bind, run_bind, run_ret. cbv beta iota. rewrite run_ext.
  set (ev3 := Event (Method srv "event") _ _).
  destruct (env (_ ++ [ev3])) as [[r3|e] h3'] eqn:E3; [|done]. cbn [fst snd].
  rewrite run_ret. intros [= <- <-]. cbn [st_trace].
  exists policy, (State hc (st_trace σ)), (VRef lo), h0, httpd, hb, h1', h2'.
  cbn [st_heap].
  assert (Hc0 : hc ⊆ h0).
  { transitivity hr; [done|]. transitivity ht; [done|]. by transitivity hn. }
  split; [done|]. split; [done|].
  split; [rewrite <- !app_assoc; reflexivity|].
  split; [exact (f_equal fst Hsrv)|].
  assert (Hconn : lookup_prop h0 (VRef lo) "connections" = Some (VRef ln)).
  { unfold h0. by rewrite lookup_object. }
  assert (Hroutes : lookup_prop h0 (VRef ln) "routes" = Some (VRef lr)).
  { apply (lookup_prop_weaken hn); [done|]. unfold hn. by rewrite lookup_object. }
  assert (Hrouter : lookup_prop h0 (VRef ln) "router" = Some (VRef lt)).
  { apply (lookup_prop_weaken hn); [done|]. unfold hn. by rewrite lookup_object. }
  assert (Hr0 : hr ⊆ h0) by (transitivity ht; [done|by transitivity hn]).
  assert (Ht0 : ht ⊆ h0) by (by transitivity hn).
  split; [|split; [|split; [|split; [|split]]]].
  - assert (lookup_prop h0 (VRef lr) "cors" = Some policy) as Hx.
    { apply (lookup_prop_weaken hr); [done|]. unfold hr. by rewrite lookup_object. }
    cbn [lookup_path]. by rewrite Hconn, Hroutes, Hx.
  - rewrite Hos. by apply (cors_origins_weaken hc).
  - exists os. by apply (cors_origins_weaken hc).
  - assert (lookup_prop h0 (VRef lr) "log" = Some (VBool true)) as Hx.
    { apply (lookup_prop_weaken hr); [done|]. unfold hr. by rewrite lookup_object. }
    cbn [lookup_path]. by rewrite Hconn, Hroutes, Hx.
  - assert (lookup_prop h0 (VRef lt) "stripTrailingSlash" = Some (VBool true)) as Hx.
    { apply (lookup_prop_weaken ht); [done|]. unfold ht. by rewrite lookup_object. }
    cbn [lookup_path]. by rewrite Hconn, Hrouter, Hx.
  - done.
Qed.

(** X12: when the server is handed to its first collaborator (the
    [connection] call), its application namespace holds, under each of the
    seventeen keys, the very value the configuration has under that key:
    the factories are shared with the configuration, not copied. *)
Theorem app_namespace_mirrors_config σ config server σ1 :
  configure env prettyPrintErrors_fn config σ = (Ok server, σ1) →
  ∃ pre httpd h1 post,
    st_trace σ1 = pre ++ Event (Method server "connection") [httpd] h1 :: post ∧
    ∀ k, k ∈ app_keys →
      ∃ x, lookup_prop h1 config k = Some x ∧
           lookup_path h1 server ["app"; k] = Some x.
Proof.
  unfold configure. rewrite run_bind.
  destruct (cors config σ) as [[policy|e] [hc trc]] eqn:Hc; [|done].
  do 4 (rewrite run_bind, run_new_object; cbv beta iota).
  rewrite run_bind, run_ext. set (ev0 := Event (Construct "hapi" "Server") _ _).
  destruct (env (trc ++ [ev0])) as [[srv|e] hs] eqn:Hsrv; [|done].
  cbn [fst snd]. rewrite run_bind.
  destruct (read_fields config app_keys _) as [[fields|e] σf] eqn:Hf; [|done].
  apply read_fields_inv in Hf as [-> Hfields]. cbn [st_heap] in Hfields.
  rewrite run_bind, run_new_object. cbv beta iota.
  set (la := fresh_loc hs). set (ha := <[la := _]> hs).
  assert (Hha : hs ⊆ ha) by apply alloc_extends.
  rewrite run_bind, run_set_prop.
  destruct (store_prop ha srv "app" (VRef la)) as [hb|] eqn:Hst; [|done].
  cbv beta iota.
  assert (Hcoerc : require_object_coercible srv = ret tt).
  { by destruct (store_prop_inv _ _ _ _ _ Hst) as (l & o & -> & _). }
  rewrite Hcoerc, run_bind, run_ret. cbv beta iota.
  rewrite run_bind, run_get_prop.
  destruct (lookup_prop hb config "httpd") as [httpd|] eqn:Hhttpd; [|done].
  cbv beta iota. rewrite run_bind, run_ext.
  set (ev1 := Event (Method srv "connection") _ hb).
  destruct (env (_ ++ [ev1])) as [[r1|e] h1'] eqn:E1; [|done]. cbn [fst snd].
  intros Hrest.
  assert (∃ post, st_trace σ1 = (trc ++ [ev0]) ++ ev1 :: post ∧ server = srv)
    as (post & Htr & ->).
  { revert Hrest. unfold call_method. rewrite Hcoerc, !run_bind, !run_ret.
    cbv beta iota. rewrite run_ext. set (ev2 := Event (Method srv "ext") _ _).
    destruct (env (_ ++ [ev2])) as [[r2|e] h2'] eqn:E2; [|done]. cbn [fst snd].
    rewrite !run_bind, !run_ret. cbv beta iota. rewrite run_ext.
    set (ev3 := Event (Method srv "event") _ _).
    destruct (env (_ ++ [ev3])) as [[r3|e] h3'] eqn:E3; [|done]. cbn [fst snd].
    rewrite run_ret. intros [= <- <-]. cbn [st_trace].
    eexists. split; [|done]. by rewrite <- !app_assoc. }
  exists (trc ++ [ev0]), httpd, hb, post. split; [done|].
  intros k Hk. destruct (Hfields k Hk) as (x & Hx & Hl). exists x.
  assert (Hka : k ≠ "app").
  { intros ->. by apply app_not_copied. }
  split.
  - rewrite (lookup_prop_store_key _ _ _ _ _ _ _ Hst) by done.
    by apply (lookup_prop_weaken hs).
  - cbn [lookup_path]. rewrite (lookup_prop_store_same _ _ _ _ _ Hst).
    rewrite (lookup_prop_store_key _ _ _ _ _ _ _ Hst) by done.
    unfold ha. by rewrite lookup_object, Hl.
Qed.

End ConfigureShape.

Section BootstrapOutcomes.

Context (env : environment) (prettyPrintErrors_fn : value).

Implicit Types (h : heap) (tr : list event) (v : value) (σ : state).

Lemma wiring_never_starts server :
  emits (λ e, is_method_call "start" e = false) (wiring env server).
Proof.
  unfold wiring, wire_build, wire_job, register_shutdown, new_closure, new_object.
  emits_auto; done.
Qed.

Lemma bootstrap_trace_before_start σ config server σ1 registered σ2 (r : result unit) σ3 :
  configure env prettyPrintErrors_fn config σ = (Ok server, σ1) →
  ext env (Import "./registerPlugins" "") [server; config] σ1 = (Ok registered, σ2) →
  wiring env server σ2 = (r, σ3) →
  ∃ evs, st_trace σ3 = st_trace σ ++ evs ∧
         Forall (λ ev, is_method_call "start" ev = false) evs.
Proof.
  intros Hconf Hreg Hwire.
  destruct (emits_run _ _ _ _ _ (configure_never_starts env prettyPrintErrors_fn config)
              Hconf) as (evs1 & E1 & F1).
  destruct (emits_run _ _ _ _ _ (wiring_never_starts server) Hwire) as (evs3 & E3 & F3).
  destruct σ1 as [h1 tr1]. rewrite run_ext in Hreg. injection Hreg as _ <-.
  cbn [st_trace] in *. subst tr1.
  exists (evs1 ++ [Event (Import "./registerPlugins" "") [server; config] h1] ++ evs3).
  rewrite E3, <- !app_assoc. split; [done|].
  apply Forall_app. split; [done|]. apply Forall_cons. by split.
Qed.

(** X13: when registration succeeds, the wiring is done and the listener
    starts, the promise of the bootstrap resolves to the server that was
    configured, and nothing is logged as an error. *)
Theorem start_success_resolves_server
    σ config server σ1 registered σ2 v σ3 started σ4 w :
  configure env prettyPrintErrors_fn config σ = (Ok server, σ1) →
  ext env (Import "./registerPlugins" "") [server; config] σ1 = (Ok registered, σ2) →
  promise_state (st_heap σ2) registered = Some (Fulfilled v) →
  wiring env server σ2 = (Ok tt, σ3) →
  call_method env server "start" [] σ3 = (Ok started, σ4) →
  promise_state (st_heap σ4) started = Some (Fulfilled w) →
  promise_state (st_heap σ4) server = None →
  ∃ p σ',
    module_exports env prettyPrintErrors_fn config σ = (Ok p, σ') ∧
    promise_state (st_heap σ') p = Some (Fulfilled server) ∧
    st_trace σ' = st_trace σ4.
Proof.
  intros Hconf Hreg Hful Hwire Hstart Hok Hsrv.
  rewrite (bootstrap_after_registration _ _ _ _ _ _ _ _ _ Hconf Hreg Hful).
  unfold onRegistered. rewrite run_bind, Hwire.
  unfold start_and_report. rewrite run_bind, Hstart.
  destruct σ4 as [h4 tr4]. cbn [st_heap st_trace] in *.
  rewrite run_bind. unfold promise_then.
  rewrite (promise_state_coercible _ _ _ Hok), run_bind, run_ret.
  cbn [st_heap]. rewrite Hok, run_ret. cbn [st_heap].
  unfold settled at 1. rewrite Hsrv, run_new_promise.
  set (l1 := fresh_loc h4). set (h5 := <[l1 := _]> h4).
  unfold promise_catch. cbn [require_object_coercible].
  rewrite run_bind, run_ret. cbn [st_heap]. unfold h5 at 1.
  rewrite promise_state_insert, run_new_promise.
  cbn [st_heap]. rewrite settled_insert, run_new_promise.
  eexists _, _. split; [done|]. cbn [st_heap st_trace].
  split; [apply promise_state_insert|done].
Qed.

(** X14: when the wiring throws (a domain factory is missing, say), the
    promise of the bootstrap is rejected with what was thrown, and the
    listener is never started. *)
Theorem wiring_failure_rejects_bootstrap σ config server σ1 registered σ2 v e σ3 :
  configure env prettyPrintErrors_fn config σ = (Ok server, σ1) →
  ext env (Import "./registerPlugins" "") [server; config] σ1 = (Ok registered, σ2) →
  promise_state (st_heap σ2) registered = Some (Fulfilled v) →
  wiring env server σ2 = (Throw e, σ3) →
  ∃ p σ',
    module_exports env prettyPrintErrors_fn config σ = (Ok p, σ') ∧
    promise_state (st_heap σ') p = Some (Rejected e) ∧
    ∃ evs, st_trace σ' = st_trace σ ++ evs ∧
           Forall (λ ev, is_method_call "start" ev = false) evs.
Proof.
  intros Hconf Hreg Hful Hwire.
  rewrite (bootstrap_after_registration _ _ _ _ _ _ _ _ _ Hconf Hreg Hful).
  unfold onRegistered. rewrite run_bind, Hwire.
  destruct σ3 as [h3 tr3]. rewrite run_new_promise.
  eexists _, _. split; [done|]. cbn [st_heap st_trace].
  split; [apply promise_state_insert|].
  apply (bootstrap_trace_before_start _ _ _ _ _ _ _ _ Hconf Hreg Hwire).
Qed.

(** X15: after a start failure the promise of the bootstrap resolves to
    whatever the logger's [error] returns. *)
Theorem start_failure_resolves_to_logger_result
    σ config server σ1 registered σ2 v σ3 started σ4 e result :
  configure env prettyPrintErrors_fn config σ = (Ok server, σ1) →
  ext env (Import "./registerPlugins" "") [server; config] σ1 = (Ok registered, σ2) →
  promise_state (st_heap σ2) registered = Some (Fulfilled v) →
  wiring env server σ2 = (Ok tt, σ3) →
  call_method env server "start" [] σ3 = (Ok started, σ4) →
  promise_state (st_heap σ4) started = Some (Rejected e) →
  (∀ tr args h,
     ∃ h', env (tr ++ [Event (Import "screwdriver-logger" "error") args h])
           = (Ok result, h') ∧ promise_state h' result = None) →
  ∃ p σ',
    module_exports env prettyPrintErrors_fn config σ = (Ok p, σ') ∧
    promise_state (st_heap σ') p = Some (Fulfilled result).
Proof.
  intros Hconf Hreg Hful Hwire Hstart Hrej Hlog.
  rewrite (bootstrap_after_registration _ _ _ _ _ _ _ _ _ Hconf Hreg Hful).
  unfold onRegistered. rewrite run_bind, Hwire.
  destruct σ4 as [h4 tr4]. cbn [st_heap] in Hrej.
  destruct (start_failure_report _ _ _ _ _ _ _ Hstart Hrej) as (h5 & _ & ->).
  destruct (Hlog tr4 [VStr "Failed to start server"; e] h5) as (h6 & -> & Hnp).
  unfold settled at 1. rewrite Hnp, run_new_promise.
  cbn [st_heap]. rewrite settled_insert, run_new_promise.
  eexists _, _. split; [done|]. apply promise_state_insert.
Qed.

(** X16: when the logger itself throws while reporting the start failure,
    the promise of the bootstrap is rejected with what the logger threw. *)
Theorem start_failure_with_failing_logger_rejects
    σ config server σ1 registered σ2 v σ3 started σ4 e e' :
  configure env prettyPrintErrors_fn config σ = (Ok server, σ1) →
  ext env (Import "./registerPlugins" "") [server; config] σ1 = (Ok registered, σ2) →
  promise_state (st_heap σ2) registered = Some (Fulfilled v) →
  wiring env server σ2 = (Ok tt, σ3) →
  call_method env server "start" [] σ3 = (Ok started, σ4) →
  promise_state (st_heap σ4) started = Some (Rejected e) →
  (∀ tr args h,
     (env (tr ++ [Event (Import "screwdriver-logger" "error") args h])).1 = Throw e') →
  ∃ p σ',
    module_exports env prettyPrintErrors_fn config σ = (Ok p, σ') ∧
    promise_state (st_heap σ') p = Some (Rejected e').
Proof.
  intros Hconf Hreg Hful Hwire Hstart Hrej Hlog.
  rewrite (bootstrap_after_registration _ _ _ _ _ _ _ _ _ Hconf Hreg Hful).
  unfold onRegistered. rewrite run_bind, Hwire.
  destruct σ4 as [h4 tr4]. cbn [st_heap] in Hrej.
  destruct (start_failure_report _ _ _ _ _ _ _ Hstart Hrej) as (h5 & _ & ->).
  specialize (Hlog tr4 [VStr "Failed to start server"; e] h5).
  destruct (env _) as [r h6]. cbn [fst] in Hlog. subst r.
  rewrite run_new_promise. cbn [st_heap]. rewrite settled_insert, run_new_promise.
  eexists _, _. split; [done|]. apply promise_state_insert.
Qed.

(** X17: when [server.start()] throws instead of returning a promise, the
    promise of the bootstrap is rejected with what was thrown; the failure is
    not caught and not logged. *)
Theorem start_throwing_rejects_bootstrap
    σ config server σ1 registered σ2 v σ3 e σ4 :
  configure env prettyPrintErrors_fn config σ = (Ok server, σ1) →
  ext env (Import "./registerPlugins" "") [server; config] σ1 = (Ok registered, σ2) →
  promise_state (st_heap σ2) registered = Some (Fulfilled v) →
  wiring env server σ2 = (Ok tt, σ3) →
  call_method env server "start" [] σ3 = (Throw e, σ4) →
  ∃ p σ',
    module_exports env prettyPrintErrors_fn config σ = (Ok p, σ') ∧
    promise_state (st_heap σ') p = Some (Rejected e) ∧
    st_trace σ' = st_trace σ4.
Proof.
  intros Hconf Hreg Hful Hwire Hstart.
  rewrite (bootstrap_after_registration _ _ _ _ _ _ _ _ _ Hconf Hreg Hful).
  unfold onRegistered. rewrite run_bind, Hwire.
  unfold start_and_report. rewrite run_bind, Hstart.
  destruct σ4 as [h4 tr4]. rewrite run_new_promise.
  eexists _, _. split; [done|]. cbn [st_heap st_trace].
  split; [apply promise_state_insert|done].
Qed.

(** X18: as long as the promise of the registrar is not settled, neither is
    the promise of the bootstrap, and nothing is wired or started: the
    registration call is the last call made. *)
Theorem pending_registration_keeps_bootstrap_pending
    σ config server σ1 registered σ2 :
  configure env prettyPrintErrors_fn config σ = (Ok server, σ1) →
  ext env (Import "./registerPlugins" "") [server; config] σ1 = (Ok registered, σ2) →
  promise_state (st_heap σ2) registered = Some Pending →
  ∃ p σ',
    module_exports env prettyPrintErrors_fn config σ = (Ok p, σ') ∧
    promise_state (st_heap σ') p = Some Pending ∧
    st_trace σ'
    = st_trace σ1 ++ [Event (Import "./registerPlugins" "") [server; config]
                            (st_heap σ1)].
Proof.
  intros Hconf Hreg Hpend. unfold module_exports.
  rewrite run_bind, Hconf, run_bind, Hreg. unfold promise_then.
  rewrite (promise_state_coercible _ _ _ Hpend), run_bind, run_ret, Hpend.
  destruct σ2 as [h2 tr2]. rewrite run_new_promise.
  eexists _, _. split; [done|]. cbn [st_heap st_trace].
  split; [apply promise_state_insert|].
  destruct σ1 as [h1 tr1]. rewrite run_ext in Hreg. by injection Hreg as _ _ <-.
Qed.

End BootstrapOutcomes.

Section WiringFrame.

Context (env : environment).

Implicit Types (h : heap) (tr : list event) (v : value) (σ : state).

(** X19: after the two wiring blocks the build-domain and the job-domain
    service both carry, as [apiUri], the address [server.info.uri] of the
    listener; the address itself is as it was. *)
Theorem wiring_sets_api_uri σ server σ1 σ2 :
  wire_build server σ = (Ok tt, σ1) →
  wire_job server σ1 = (Ok tt, σ2) →
  ∃ uri buildFactory jobFactory,
    lookup_path (st_heap σ) server ["info"; "uri"] = Some uri ∧
    lookup_path (st_heap σ2) server ["info"; "uri"] = Some uri ∧
    lookup_path (st_heap σ2) server ["app"; "buildFactory"] = Some buildFactory ∧
    lookup_path (st_heap σ2) server ["app"; "jobFactory"] = Some jobFactory ∧
    lookup_prop (st_heap σ2) buildFactory "apiUri" = Some uri ∧
    lookup_prop (st_heap σ2) jobFactory "apiUri" = Some uri.
Proof.
  rewrite wire_build_domain, wire_job_domain. intros Hb Hj.
  apply wire_domain_frame in Hb
    as (bf & uri & Huri & Hbf & Hbu & Hpath1 & _ & _); [|done..].
  assert (Huri1 : lookup_path (st_heap σ1) server ["info"; "uri"] = Some uri).
  { apply Hpath1; [..|done];
      rewrite !not_elem_of_cons; (repeat split; [done|done|apply not_elem_of_nil]). }
  apply wire_domain_frame in Hj
    as (jf & uri' & Huri' & Hjf & Hju & Hpath2 & _ & Hsame); [|done..].
  rewrite Huri1 in Huri'. injection Huri' as <-.
  exists uri, bf, jf. repeat apply conj; try done.
  - apply Hpath2; [..|done];
      rewrite !not_elem_of_cons; (repeat split; [done|done|apply not_elem_of_nil]).
  - apply Hpath2; [..|done];
      rewrite !not_elem_of_cons; (repeat split; [done|done|apply not_elem_of_nil]).
  - by apply Hsame.
Qed.

(** X20: after the two wiring blocks both token generators are in place, as
    long as the job-domain service is neither the build-domain service nor
    its executor: [buildFactory.tokenGen] and [buildFactory.executor.tokenGen]
    are the build generator, [jobFactory.tokenGen] and
    [jobFactory.executor.userTokenGen] the job generator, and the two are
    different functions. *)
Theorem wiring_installs_both_generators σ server σ1 σ2 buildFactory executor jobFactory :
  wire_build server σ = (Ok tt, σ1) →
  wire_job server σ1 = (Ok tt, σ2) →
  lookup_path (st_heap σ2) server ["app"; "buildFactory"] = Some buildFactory →
  lookup_prop (st_heap σ2) buildFactory "executor" = Some executor →
  lookup_path (st_heap σ2) server ["app"; "jobFactory"] = Some jobFactory →
  buildFactory ≠ jobFactory → executor ≠ jobFactory →
  ∃ tokenGen userTokenGen jobExecutor,
    lookup_prop (st_heap σ2) buildFactory "tokenGen" = Some tokenGen ∧
    lookup_prop (st_heap σ2) executor "tokenGen" = Some tokenGen ∧
    closure_at (st_heap σ2) tokenGen = Some (TokenGenBuild server) ∧
    lookup_prop (st_heap σ2) jobFactory "executor" = Some jobExecutor ∧
    lookup_prop (st_heap σ2) jobFactory "tokenGen" = Some userTokenGen ∧
    lookup_prop (st_heap σ2) jobExecutor "userTokenGen" = Some userTokenGen ∧
    closure_at (st_heap σ2) userTokenGen = Some (TokenGenJob server) ∧
    tokenGen ≠ userTokenGen.
Proof.
  rewrite wire_build_domain, wire_job_domain. intros Hb Hj Hbf Hbex Hjf Hne1 Hne2.
  apply wire_domain_installs in Hb
    as (d & ex & tg & Hd & Htg & Hex & Hslot & Hc & _); [|done..].
  pose proof Hj as Hj'.
  apply wire_domain_installs in Hj'
    as (d' & ex' & tg' & Hd' & Htg' & Hex' & Hslot' & Hc' & _ & _ & Hclos); [|done..].
  apply wire_domain_frame in Hj
    as (d'' & _ & _ & Hd'' & _ & Hpath & Hobj & _); [|done..].
  rewrite Hjf in Hd'. injection Hd' as <-.
  rewrite Hjf in Hd''. injection Hd'' as <-.
  assert (d = buildFactory) as ->.
  { assert (lookup_path (st_heap σ2) server ["app"; "buildFactory"] = Some d) as Hd2.
    { apply Hpath; [..|done];
        rewrite !not_elem_of_cons; (repeat split; [done|done|apply not_elem_of_nil]). }
    congruence. }
  assert (ex = executor) as ->.
  { assert (lookup_path (st_heap σ2) buildFactory ["executor"] = Some ex) as Hex2.
    { apply Hpath; [..|by cbn [lookup_path]; rewrite Hex];
        rewrite !not_elem_of_cons; (split; [done|apply not_elem_of_nil]). }
    cbn [lookup_path] in Hex2. rewrite Hbex in Hex2. congruence. }
  exists tg, tg', ex'. repeat apply conj; try done.
  - by apply Hobj.
  - by apply Hobj.
  - by apply Hclos.
  - intros ->. apply Hclos in Hc. congruence.
Qed.

End WiringFrame.

Section TokenGeneratorEdges.

Context (env : environment).

Implicit Types (h : heap) (tr : list event) (v : value) (σ : state).

Lemma token_generator_without_auth server subject scmContext metadata scope rest s :
  (∀ auth, lookup_path (st_heap s) server ["plugins"; "auth"] = Some auth →
           nullish auth) →
  (let! auth0 := get_path server ["plugins"; "auth"] in
   require_object_coercible auth0 ;;
   let! auth' := get_path server ["plugins"; "auth"] in
   require_object_coercible auth' ;;
   let! scopes := new_array [VStr scope] in
   let! profile := ext env (Method auth' "generateProfile")
                       [subject; scmContext; scopes; metadata] in
   ext env (Method auth0 "generateToken") (profile :: rest)) s
  = (Throw VTypeError, s).
Proof.
  intros Hauth. destruct s as [h tr]. cbn [st_heap] in Hauth.
  rewrite run_bind, run_get_path.
  destruct (lookup_path h server ["plugins"; "auth"]) as [auth|]; [|done].
  cbv beta iota. by destruct (Hauth auth eq_refl) as [-> | ->].
Qed.

(** X21: without an auth capability on [server.plugins] (no [plugins], or
    [auth] undefined or null) both token generators throw a TypeError, and no
    collaborator is called. *)
Theorem token_generators_need_auth
    server s buildId username metadata scmContext expiresIn :
  (∀ auth, lookup_path (st_heap s) server ["plugins"; "auth"] = Some auth →
           nullish auth) →
  tokenGenBuild env server buildId metadata scmContext expiresIn s
  = (Throw VTypeError, s) ∧
  tokenGenJob env server username metadata scmContext s = (Throw VTypeError, s).
Proof.
  intros Hauth. split.
  - apply (token_generator_without_auth server buildId scmContext metadata
             "temporal" [expiresIn] s Hauth).
  - apply (token_generator_without_auth server username scmContext metadata
             "user" [] s Hauth).
Qed.

Lemma token_generator_profile_throws
    server auth subject scmContext metadata scope rest s e :
  lookup_path (st_heap s) server ["plugins"; "auth"] = Some auth →
  ¬ nullish auth →
  (∀ tr args h, (env (tr ++ [Event (Method auth "generateProfile") args h])).1
                = Throw e) →
  ∃ scopes h1 h2,
    array_elems h1 scopes = Some [VStr scope] ∧
    (let! auth0 := get_path server ["plugins"; "auth"] in
     require_object_coercible auth0 ;;
     let! auth' := get_path server ["plugins"; "auth"] in
     require_object_coercible auth' ;;
     let! scopes := new_array [VStr scope] in
     let! profile := ext env (Method auth' "generateProfile")
                         [subject; scmContext; scopes; metadata] in
     ext env (Method auth0 "generateToken") (profile :: rest)) s
    = (Throw e, State h2 (st_trace s ++ [Event (Method auth "generateProfile")
                                               [subject; scmContext; scopes; metadata]
                                               h1])).
Proof.
  intros Hauth Hnn Hthrow. destruct s as [h tr]. cbn [st_heap st_trace] in *.
  set (h1 := <[fresh_loc h := Obj (KArray [VStr scope]) ∅]> h).
  set (ev := Event (Method auth "generateProfile")
                   [subject; scmContext; VRef (fresh_loc h); metadata] h1).
  exists (VRef (fresh_loc h)), h1, (env (tr ++ [ev])).2.
  split; [apply array_elems_insert|].
  rewrite run_bind, run_get_path, Hauth. cbv beta iota.
  rewrite (not_nullish_coercible _ Hnn), run_bind, run_ret. cbv beta iota.
  rewrite run_bind, run_get_path, Hauth. cbv beta iota.
  rewrite (not_nullish_coercible _ Hnn), run_bind, run_ret. cbv beta iota.
  rewrite run_bind, run_new_array. cbv beta iota.
  rewrite run_bind, run_ext. fold h1. fold ev.
  specialize (Hthrow tr [subject; scmContext; VRef (fresh_loc h); metadata] h1).
  fold ev in Hthrow. by rewrite Hthrow.
Qed.

(** X22: when [generateProfile] throws, both token generators throw the same
    value, and [generateToken] is not called: the profile request is the one
    call they make. *)
Theorem token_generators_stop_at_profile_failure
    server auth s e buildId username metadata scmContext expiresIn :
  lookup_path (st_heap s) server ["plugins"; "auth"] = Some auth →
  ¬ nullish auth →
  (∀ tr args h, (env (tr ++ [Event (Method auth "generateProfile") args h])).1
                = Throw e) →
  (∃ scopes h1 h2,
     array_elems h1 scopes = Some [VStr "temporal"] ∧
     tokenGenBuild env server buildId metadata scmContext expiresIn s
     = (Throw e, State h2 (st_trace s ++ [Event (Method auth "generateProfile")
                                                [buildId; scmContext; scopes; metadata]
                                                h1]))) ∧
  (∃ scopes h1 h2,
     array_elems h1 scopes = Some [VStr "user"] ∧
     tokenGenJob env server username metadata scmContext s
     = (Throw e, State h2 (st_trace s ++ [Event (Method auth "generateProfile")
                                                [username; scmContext; scopes; metadata]
                                                h1]))).
Proof.
  intros Hauth Hnn Hthrow. split.
  - apply (token_generator_profile_throws server auth buildId scmContext metadata
             "temporal" [expiresIn] s e Hauth Hnn Hthrow).
  - apply (token_generator_profile_throws server auth username scmContext metadata
             "user" [] s e Hauth Hnn Hthrow).
Qed.

(** X23: when [cleanUp] throws, or what it returns does not settle well (a
    rejected or a pending promise), the promise of the shutdown task stays
    pending and the completion message is not logged: [cleanUp] is the one
    call made. *)
Theorem cleanup_failure_leaves_task_pending server s jobFactory :
  lookup_path (st_heap s) server ["app"; "jobFactory"] = Some jobFactory →
  ¬ nullish jobFactory →
  match env (st_trace s ++ [Event (Method jobFactory "cleanUp") [] (st_heap s)]) with
  | (Ok r, h1) => ∀ w, settled h1 r ≠ Fulfilled w
  | (Throw _, _) => True
  end →
  ∃ p s',
    cleanupTask env server s = (Ok p, s') ∧
    promise_state (st_heap s') p = Some Pending ∧
    st_trace s' = st_trace s ++ [Event (Method jobFactory "cleanUp") [] (st_heap s)].
Proof.
  intros Hjf Hnn Hclean. unfold cleanupTask, cleanupExecutor.
  destruct s as [h tr]. cbn [st_heap st_trace] in *.
  rewrite run_bind, run_bind, run_get_path, Hjf. cbv beta iota.
  unfold call_method.
  rewrite (not_nullish_coercible _ Hnn), run_bind, run_ret, run_ext.
  destruct (env _) as [[r|e] h1]; cbn [fst snd st_heap].
  - destruct (settled h1 r) as [|w|e] eqn:Hs.
    + rewrite run_new_promise. eexists _, _. split; [done|].
      split; [apply promise_state_insert|done].
    + by destruct (Hclean w).
    + rewrite run_new_promise. eexists _, _. split; [done|].
      split; [apply promise_state_insert|done].
  - rewrite run_new_promise. eexists _, _. split; [done|].
    split; [apply promise_state_insert|done].
Qed.

End TokenGeneratorEdges.

(** ** The statements on the concrete deployment *)

Module ScenarioFacts.

Import Scenario.

(** Both sides are closed terms: compare them by evaluation. *)
Ltac evaluate :=
  lazymatch goal with
  | |- ?l = ?r => exact (eq_refl r <: l = r)
  end.

Lemma world_logging_keeps registered started this l :
  logging_keeps (world registered started) this l.
Proof.
  intros tr tags detail h. exists VUndefined, h.
  unfold world. by rewrite last_snoc.
Qed.

Lemma world_logs registered started tr args h :
  world registered started (tr ++ [Event (Import "screwdriver-logger" "error") args h])
  = (Ok VUndefined, h).
Proof. unfold world. by rewrite last_snoc. Qed.


(** Scenario A: no extra origins. *)
Lemma cors_origins_without_extras_witness :
  ∃ policy σ',
    cors config (State store_ui_only []) = (Ok policy, σ') ∧
    cors_origins (st_heap σ') policy = Some [VStr "https://ui.example"].
Proof.
  apply (cors_origins_without_extras (State store_ui_only []) config
           (VStr "https://ui.example") VUndefined).
  - evaluate.
  - evaluate.
  - apply extras_absent.
Defined.

Lemma cors_origins_with_extras_witness :
  ∃ policy σ',
    cors config start0 = (Ok policy, σ') ∧
    cors_origins (st_heap σ') policy
    = Some [VStr "https://ui.example"; VStr "https://a.example";
            VStr "https://b.example"].
Proof.
  apply (cors_origins_with_extras start0 config (VStr "https://ui.example")
           extra_origins); evaluate.
Defined.

Lemma registration_failure_rejects_bootstrap_witness :
  ∃ p σ',
    module_exports failing_registrar prettyPrintErrors_fn config start0 = (Ok p, σ') ∧
    promise_state (st_heap σ') p = Some (Rejected (VStr "install failed")) ∧
    ∃ evs, st_trace σ' = st_trace start0 ++ evs ∧
           Forall (λ ev, is_method_call "start" ev = false) evs.
Proof.
  pose (configured := configure failing_registrar prettyPrintErrors_fn config start0).
  pose (server := value_of VUndefined configured).
  pose (registered := ext failing_registrar (Import "./registerPlugins" "")
                          [server; config] (state_of configured)).
  apply (registration_failure_rejects_bootstrap failing_registrar
           prettyPrintErrors_fn start0 config
           server (state_of configured)
           (value_of VUndefined registered) (state_of registered)
           (VStr "install failed")); evaluate.
Defined.

Lemma start_failure_settles_as_logging_does_witness :
  ∃ p σ',
    module_exports failing_listener prettyPrintErrors_fn config start0 = (Ok p, σ') ∧
    promise_state (st_heap σ') p = Some (Fulfilled VUndefined) ∧
    ∃ h, last (st_trace σ')
         = Some (Event (Import "screwdriver-logger" "error")
                       [VStr "Failed to start server"; VStr "EADDRINUSE"] h).
Proof.
  pose (configured := configure failing_listener prettyPrintErrors_fn config start0).
  pose (server := value_of VUndefined configured).
  pose (registered := ext failing_listener (Import "./registerPlugins" "")
                          [server; config] (state_of configured)).
  pose (wired := wiring failing_listener server (state_of registered)).
  pose (started := call_method failing_listener server "start" [] (state_of wired)).
  destruct (start_failure_settles_as_logging_does failing_listener
              prettyPrintErrors_fn start0 config
              server (state_of configured)
              (value_of VUndefined registered) (state_of registered) VUndefined
              (state_of wired)
              (value_of VUndefined started) (state_of started)
              (VStr "EADDRINUSE"))
    as (p & σ' & h & Hrun & Htr & Hp); [evaluate..|].
  unfold failing_listener in Hp. rewrite world_logs in Hp.
  refine (ex_intro _ p (ex_intro _ σ' (conj Hrun (conj Hp (ex_intro _ h _))))).
  rewrite Htr. apply last_snoc.
Defined.

Lemma build_token_generator_wired_witness :
  ∃ p σ' call rest tokenGen,
    module_exports running prettyPrintErrors_fn config start0 = (Ok p, σ') ∧
    st_trace σ' = st_trace registered ++ call :: rest ∧
    lookup_prop (ev_heap call) (VRef 4) "tokenGen" = Some tokenGen ∧
    lookup_prop (ev_heap call) (VRef 5) "tokenGen" = Some tokenGen ∧
    closure_at (ev_heap call) tokenGen = Some (TokenGenBuild server).
Proof.
  pose (registration := ext running (Import "./registerPlugins" "")
                            [server; config] (state_of configured)).
  pose (wired := wiring running server registered).
  destruct (build_token_generator_wired running prettyPrintErrors_fn start0 config
              server (state_of configured)
              (value_of VUndefined registration) registered VUndefined
              (state_of wired) (VRef 4) (VRef 5) (VRef 6))
    as (p & σ' & call & rest & tg & Hrun & Htr & _ & Htg & _ & Hex & Hc & _);
    [evaluate | evaluate | evaluate | evaluate | evaluate | evaluate | evaluate
    | discriminate | discriminate |].
  exact (ex_intro _ p (ex_intro _ σ' (ex_intro _ call (ex_intro _ rest (ex_intro _ tg
           (conj Hrun (conj Htr (conj Htg (conj Hex Hc))))))))).
Defined.

Lemma job_token_generator_wired_witness :
  ∃ p σ' call rest jobFactory executor tokenGen,
    module_exports running prettyPrintErrors_fn config start0 = (Ok p, σ') ∧
    st_trace σ' = st_trace registered ++ call :: rest ∧
    lookup_path (ev_heap call) server ["app"; "jobFactory"] = Some jobFactory ∧
    lookup_prop (ev_heap call) jobFactory "tokenGen" = Some tokenGen ∧
    lookup_prop (ev_heap call) jobFactory "executor" = Some executor ∧
    lookup_prop (ev_heap call) executor "userTokenGen" = Some tokenGen ∧
    closure_at (ev_heap call) tokenGen = Some (TokenGenJob server).
Proof.
  pose (registration := ext running (Import "./registerPlugins" "")
                            [server; config] (state_of configured)).
  pose (wired := wiring running server registered).
  destruct (job_token_generator_wired running prettyPrintErrors_fn start0 config
              server (state_of configured)
              (value_of VUndefined registration) registered VUndefined
              (state_of wired))
    as (p & σ' & call & rest & jf & ex & tg & Hrun & Htr & Hjf & Htg & Hex & Hslot
        & Hc & _); [evaluate..|].
  exact (ex_intro _ p (ex_intro _ σ' (ex_intro _ call (ex_intro _ rest (ex_intro _ jf
           (ex_intro _ ex (ex_intro _ tg
              (conj Hrun (conj Htr (conj Hjf (conj Htg (conj Hex (conj Hslot Hc))))))))))))).
Defined.


Lemma error_normalizer_logs_500_once_witness :
  ∃ evs,
    st_trace (prettyPrintErrors running request reply internal_failure).2
    = st_trace internal_failure ++ evs ∧
    count_calls (Method request "log") evs = 1%nat.
Proof.
  destruct (error_normalizer_logs_500_once running internal_failure request reply
              failure (VNum 500)) as (evs & Htr & Hcount).
  - split; [evaluate|]. exists (VBool true). split; evaluate.
  - evaluate.
  - exact (ex_intro _ evs (conj Htr Hcount)).
Defined.

Lemma normalized_body_copies_truthy_data_witness :
  ∃ evs body,
    st_trace (prettyPrintErrors running request reply internal_failure).2
    = st_trace internal_failure ++ evs ∧
    replied reply evs = [body] ∧
    props body !! "data" = Some (VRef 6) ∧
    props body !! "statusCode" = Some (VNum 500).
Proof.
  destruct (normalized_body_copies_truthy_data running internal_failure request
              reply 2 (VNum 500) (VRef 6))
    as (evs & body & Htr & Hrep & Hdata & Hsc & _).
  - split; [evaluate|]. exists (VBool true). split; evaluate.
  - evaluate.
  - evaluate.
  - apply world_logging_keeps.
  - exact (ex_intro _ evs (ex_intro _ body (conj Htr (conj Hrep (conj Hdata Hsc))))).
Defined.

Lemma normalized_message_is_top_level_witness :
  ∃ evs body,
    st_trace (prettyPrintErrors running request reply internal_failure).2
    = st_trace internal_failure ++ evs ∧
    replied reply evs = [body] ∧
    props body !! "message" = Some (VStr "disk quota exceeded") ∧
    props body !! "message" ≠ Some (VStr "An internal server error occurred").
Proof.
  destruct (normalized_message_is_top_level running internal_failure request
              reply 2 (VNum 500) (VStr "Internal Server Error")
              (VStr "An internal server error occurred")
              (VStr "disk quota exceeded"))
    as (evs & body & Htr & Hrep & Hmsg & _ & _ & Hne).
  - split; [evaluate|]. exists (VBool true). split; evaluate.
  - evaluate.
  - evaluate.
  - evaluate.
  - evaluate.
  - apply world_logging_keeps.
  - refine (ex_intro _ evs (ex_intro _ body (conj Htr (conj Hrep (conj Hmsg (Hne _)))))).
    discriminate.
Defined.

Lemma falsy_data_is_dropped :
  (∃ o, st_heap falsy_data_failure !! 2%positive = Some o ∧
        props o !! "data" = Some (VNum 0)) ∧
  ∃ body,
    replied reply
      (st_trace (prettyPrintErrors running request reply falsy_data_failure).2)
    = [body] ∧
    props body !! "data" = None.
Proof.
  split.
  - exists (plain [("isBoom", VBool true); ("message", VStr "invalid");
                   ("output", VRef 3); ("data", VNum 0)]).
    split; evaluate.
  - exists (plain [("statusCode", VNum 400); ("error", VStr "Bad Request");
                   ("message", VStr "invalid")]).
    split; evaluate.
Qed.

End ScenarioFacts.

(** ** The further statements on concrete deployments *)

Module DeviationFacts.

Import Scenario Deviations ScenarioFacts.

Lemma not_nullish_ref l : ¬ nullish (VRef l).
Proof. intros [?|?]; discriminate. Qed.

Lemma non_failure_passes_through_witness :
  prettyPrintErrors running request reply success_response
  = ((running (st_trace success_response ++
               [Event (Method reply "continue") [] (st_heap success_response)])).1,
     State (running (st_trace success_response ++
                     [Event (Method reply "continue") [] (st_heap success_response)])).2
           (st_trace success_response ++
            [Event (Method reply "continue") [] (st_heap success_response)])).
Proof.
  apply (non_failure_passes_through running success_response request reply
           (VRef 2) VUndefined).
  - evaluate.
  - evaluate.
  - reflexivity.
  - apply not_nullish_ref.
Defined.

Lemma internal_failure_is_failure :
  failure_response (st_heap internal_failure) request failure.
Proof. split; [evaluate|]. exists (VBool true). split; evaluate. Qed.

Lemma internal_failure_log_record_witness :
  ∃ tags evs,
    st_trace (prettyPrintErrors running request reply internal_failure).2
    = st_trace internal_failure ++
      Event (Method request "log") [tags; VStr "disk quota exceeded"]
            (<[fresh_loc (st_heap internal_failure) :=
                 Obj (KArray [VStr "server"; VStr "error"]) ∅]>
               (st_heap internal_failure))
      :: evs.
Proof.
  destruct (internal_failure_log_record running internal_failure request reply
              failure (VStr "disk quota exceeded") VUndefined)
    as (tags & evs & Htr & _).
  - exact internal_failure_is_failure.
  - evaluate.
  - evaluate.
  - evaluate.
  - exact (ex_intro _ tags (ex_intro _ evs Htr)).
Defined.

Lemma failing_log_throws tr args h this :
  (failing_log (tr ++ [Event (Method this "log") args h])).1
  = Throw (VStr "log unavailable").
Proof. unfold failing_log. by rewrite last_snoc. Qed.

Lemma logging_failure_prevents_reply_witness :
  (prettyPrintErrors failing_log request reply internal_failure).1
  = Throw (VStr "log unavailable") ∧
  ∃ evs,
    st_trace (prettyPrintErrors failing_log request reply internal_failure).2
    = st_trace internal_failure ++ evs ∧
    count_calls (Fn reply) evs = 0%nat ∧
    count_calls (Method request "log") evs = 1%nat.
Proof.
  apply (logging_failure_prevents_reply failing_log internal_failure request reply
           failure (VStr "log unavailable")).
  - exact internal_failure_is_failure.
  - evaluate.
  - intros tr args h. apply failing_log_throws.
Defined.

Lemma failure_without_payload_throws_witness :
  prettyPrintErrors running request reply bare_failure = (Throw VTypeError, bare_failure).
Proof.
  apply (failure_without_payload_throws running bare_failure request reply failure).
  - split; [evaluate|]. exists (VBool true). split; evaluate.
  - evaluate.
Defined.

Lemma normalized_reply_sets_status_witness :
  ∃ logged body h1,
    count_calls (Method request "log") logged = length logged ∧
    prettyPrintErrors running request reply internal_failure
    = match running (st_trace internal_failure ++ logged
                     ++ [Event (Fn reply) [body] h1]) with
      | (Ok r, h2) =>
          call_method running r "code" [VNum 500]
            (State h2 (st_trace internal_failure ++ logged
                       ++ [Event (Fn reply) [body] h1]))
      | (Throw e, h2) =>
          (Throw e, State h2 (st_trace internal_failure ++ logged
                              ++ [Event (Fn reply) [body] h1]))
      end.
Proof.
  apply (normalized_reply_sets_status running internal_failure request reply
           2%positive (VNum 500)).
  - exact internal_failure_is_failure.
  - evaluate.
  - apply world_logging_keeps.
Defined.

Lemma cors_policy_fixed_fields_witness :
  (∃ exposed,
     lookup_prop (st_heap (state_of (cors config start0)))
                 (value_of VUndefined (cors config start0))
                 "additionalExposedHeaders" = Some exposed ∧
     array_elems (st_heap (state_of (cors config start0))) exposed
     = Some [VStr "x-more-data"]) ∧
  lookup_prop (st_heap (state_of (cors config start0)))
              (value_of VUndefined (cors config start0)) "credentials"
  = Some (VBool true).
Proof.
  apply (cors_policy_fixed_fields start0 config). evaluate.
Defined.

Lemma cors_builder_is_pure_witness :
  st_trace (state_of (cors config start0)) = st_trace start0 ∧
  st_heap start0 ⊆ st_heap (state_of (cors config start0)) ∧
  ∃ l, value_of VUndefined (cors config start0) = VRef l ∧ st_heap start0 !! l = None.
Proof.
  apply (cors_builder_is_pure start0 config). evaluate.
Defined.

Lemma cors_origins_in_order_witness :
  ∃ policy σ',
    cors config start0 = (Ok policy, σ') ∧
    cors_origins (st_heap σ') policy
    = Some [VStr "https://ui.example"; VStr "https://a.example";
            VStr "https://b.example"].
Proof.
  apply (cors_origins_in_order start0 config (VStr "https://ui.example")
           extra_origins [VStr "https://a.example"; VStr "https://b.example"]);
    evaluate.
Defined.

Lemma cors_builder_twice_witness :
  ∃ policy1 σ1 policy2 σ2,
    cors config start0 = (Ok policy1, σ1) ∧
    cors config σ1 = (Ok policy2, σ2) ∧
    policy1 ≠ policy2 ∧
    cors_origins (st_heap σ2) policy1 = cors_origins (st_heap σ2) policy2 ∧
    is_Some (cors_origins (st_heap σ2) policy2).
Proof.
  apply (cors_builder_twice start0 config (VStr "https://ui.example") extra_origins).
  - evaluate.
  - evaluate.
  - assert (st_heap start0 !! 8%positive
            = Some (Obj (KArray [VStr "https://a.example"; VStr "https://b.example"]) ∅))
      as Hextra by evaluate.
    exact (ex_intro _ _ Hextra).
Defined.

Lemma missing_ecosystem_throws_witness :
  module_exports running prettyPrintErrors_fn config start_without_ecosystem
  = (Throw VTypeError, start_without_ecosystem).
Proof.
  apply (missing_ecosystem_throws running prettyPrintErrors_fn
           start_without_ecosystem config).
  evaluate.
Defined.


Lemma configure_calls_witness :
  ∃ policy σc options h0 httpd h1 h2 h3,
    cors config start0 = (Ok policy, σc) ∧
    st_heap σc ⊆ h0 ∧
    st_trace (state_of configured)
    = st_trace start0 ++
      [Event (Construct "hapi" "Server") [options] h0;
       Event (Method server "connection") [httpd] h1;
       Event (Method server "ext") [VStr "onPreResponse"; prettyPrintErrors_fn] h2;
       Event (Method server "event") [VStr "build_status"] h3] ∧
    (running (st_trace start0 ++ [Event (Construct "hapi" "Server") [options] h0])).1
    = Ok server ∧
    lookup_path h0 options ["connections"; "routes"; "cors"] = Some policy ∧
    cors_origins h0 policy = cors_origins (st_heap σc) policy ∧
    is_Some (cors_origins h0 policy) ∧
    lookup_path h0 options ["connections"; "routes"; "log"] = Some (VBool true) ∧
    lookup_path h0 options ["connections"; "router"; "stripTrailingSlash"]
    = Some (VBool true) ∧
    lookup_prop h1 config "httpd" = Some httpd.
Proof.
  apply (configure_calls running prettyPrintErrors_fn start0 config server
           (state_of configured)).
  evaluate.
Defined.

Lemma app_namespace_mirrors_config_witness :
  ∃ pre httpd h1 post,
    st_trace (state_of configured)
    = pre ++ Event (Method server "connection") [httpd] h1 :: post ∧
    ∀ k, k ∈ app_keys →
      ∃ x, lookup_prop h1 config k = Some x ∧
           lookup_path h1 server ["app"; k] = Some x.
Proof.
  apply (app_namespace_mirrors_config running prettyPrintErrors_fn start0 config
           server (state_of configured)).
  evaluate.
Defined.

Lemma start_success_resolves_server_witness :
  ∃ p σ',
    module_exports running prettyPrintErrors_fn config start0 = (Ok p, σ') ∧
    promise_state (st_heap σ') p = Some (Fulfilled server) ∧
    st_trace σ'
    = st_trace (state_of (call_method running server "start" []
                            (state_of (wiring running server registered)))).
Proof.
  pose (registration := ext running (Import "./registerPlugins" "")
                            [server; config] (state_of configured)).
  pose (wired := wiring running server registered).
  pose (started := call_method running server "start" [] (state_of wired)).
  apply (start_success_resolves_server running prettyPrintErrors_fn start0 config
           server (state_of configured)
           (value_of VUndefined registration) registered VUndefined
           (state_of wired)
           (value_of VUndefined started) (state_of started) VUndefined); evaluate.
Defined.

Lemma wiring_failure_rejects_bootstrap_witness :
  ∃ p σ',
    module_exports running prettyPrintErrors_fn config start_without_factories
    = (Ok p, σ') ∧
    promise_state (st_heap σ') p = Some (Rejected VTypeError) ∧
    ∃ evs, st_trace σ' = st_trace start_without_factories ++ evs ∧
           Forall (λ ev, is_method_call "start" ev = false) evs.
Proof.
  pose (configured := configure running prettyPrintErrors_fn config
                        start_without_factories).
  pose (server := value_of VUndefined configured).
  pose (registration := ext running (Import "./registerPlugins" "")
                            [server; config] (state_of configured)).
  pose (wired := wiring running server (state_of registration)).
  apply (wiring_failure_rejects_bootstrap running prettyPrintErrors_fn
           start_without_factories config
           server (state_of configured)
           (value_of VUndefined registration) (state_of registration) VUndefined
           VTypeError (state_of wired)); evaluate.
Defined.

Lemma answering_logger_answers tr args h :
  ∃ h', answering_logger (tr ++ [Event (Import "screwdriver-logger" "error") args h])
        = (Ok (VStr "logged"), h') ∧
        promise_state h' (VStr "logged") = None.
Proof. exists h. unfold answering_logger. by rewrite last_snoc. Qed.

Lemma start_failure_resolves_to_logger_result_witness :
  ∃ p σ',
    module_exports answering_logger prettyPrintErrors_fn config start0 = (Ok p, σ') ∧
    promise_state (st_heap σ') p = Some (Fulfilled (VStr "logged")).
Proof.
  pose (configured := configure answering_logger prettyPrintErrors_fn config start0).
  pose (server := value_of VUndefined configured).
  pose (registration := ext answering_logger (Import "./registerPlugins" "")
                            [server; config] (state_of configured)).
  pose (wired := wiring answering_logger server (state_of registration)).
  pose (started := call_method answering_logger server "start" [] (state_of wired)).
  apply (start_failure_resolves_to_logger_result answering_logger
           prettyPrintErrors_fn start0 config
           server (state_of configured)
           (value_of VUndefined registration) (state_of registration) VUndefined
           (state_of wired)
           (value_of VUndefined started) (state_of started)
           (VStr "EADDRINUSE") (VStr "logged"));
    [evaluate.. | apply answering_logger_answers].
Defined.

Lemma broken_logger_throws tr args h :
  (broken_logger (tr ++ [Event (Import "screwdriver-logger" "error") args h])).1
  = Throw (VStr "EPIPE").
Proof. unfold broken_logger. by rewrite last_snoc. Qed.

Lemma start_failure_with_failing_logger_rejects_witness :
  ∃ p σ',
    module_exports broken_logger prettyPrintErrors_fn config start0 = (Ok p, σ') ∧
    promise_state (st_heap σ') p = Some (Rejected (VStr "EPIPE")).
Proof.
  pose (configured := configure broken_logger prettyPrintErrors_fn config start0).
  pose (server := value_of VUndefined configured).
  pose (registration := ext broken_logger (Import "./registerPlugins" "")
                            [server; config] (state_of configured)).
  pose (wired := wiring broken_logger server (state_of registration)).
  pose (started := call_method broken_logger server "start" [] (state_of wired)).
  apply (start_failure_with_failing_logger_rejects broken_logger
           prettyPrintErrors_fn start0 config
           server (state_of configured)
           (value_of VUndefined registration) (state_of registration) VUndefined
           (state_of wired)
           (value_of VUndefined started) (state_of started)
           (VStr "EADDRINUSE") (VStr "EPIPE"));
    [evaluate.. | apply broken_logger_throws].
Defined.

Lemma start_throwing_rejects_bootstrap_witness :
  ∃ p σ',
    module_exports throwing_start prettyPrintErrors_fn config start0 = (Ok p, σ') ∧
    promise_state (st_heap σ') p = Some (Rejected (VStr "EACCES")) ∧
    st_trace σ'
    = st_trace
        (state_of
           (call_method throwing_start
              (value_of VUndefined
                 (configure throwing_start prettyPrintErrors_fn config start0))
              "start" []
              (state_of
                 (wiring throwing_start
                    (value_of VUndefined
                       (configure throwing_start prettyPrintErrors_fn config start0))
                    (state_of
                       (ext throwing_start (Import "./registerPlugins" "")
                          [value_of VUndefined
                             (configure throwing_start prettyPrintErrors_fn config
                                start0);
                           config]
                          (state_of
                             (configure throwing_start prettyPrintErrors_fn config
                                start0)))))))).
Proof.
  pose (configured := configure throwing_start prettyPrintErrors_fn config start0).
  pose (server := value_of VUndefined configured).
  pose (registration := ext throwing_start (Import "./registerPlugins" "")
                            [server; config] (state_of configured)).
  pose (wired := wiring throwing_start server (state_of registration)).
  pose (started := call_method throwing_start server "start" [] (state_of wired)).
  apply (start_throwing_rejects_bootstrap throwing_start
           prettyPrintErrors_fn start0 config
           server (state_of configured)
           (value_of VUndefined registration) (state_of registration) VUndefined
           (state_of wired) (VStr "EACCES") (state_of started)); evaluate.
Defined.

Lemma pending_registration_keeps_bootstrap_pending_witness :
  ∃ p σ',
    module_exports stalled_registrar prettyPrintErrors_fn config start0 = (Ok p, σ') ∧
    promise_state (st_heap σ') p = Some Pending ∧
    st_trace σ'
    = st_trace (state_of (configure stalled_registrar prettyPrintErrors_fn config
                            start0))
      ++ [Event (Import "./registerPlugins" "")
                [value_of VUndefined
                   (configure stalled_registrar prettyPrintErrors_fn config start0);
                 config]
                (st_heap (state_of (configure stalled_registrar prettyPrintErrors_fn
                                      config start0)))].
Proof.
  pose (configured := configure stalled_registrar prettyPrintErrors_fn config start0).
  pose (server := value_of VUndefined configured).
  pose (registration := ext stalled_registrar (Import "./registerPlugins" "")
                            [server; config] (state_of configured)).
  apply (pending_registration_keeps_bootstrap_pending stalled_registrar
           prettyPrintErrors_fn start0 config
           server (state_of configured)
           (value_of VUndefined registration) (state_of registration)); evaluate.
Defined.

Lemma wiring_sets_api_uri_witness :
  ∃ uri buildFactory jobFactory,
    lookup_path (st_heap registered) server ["info"; "uri"] = Some uri ∧
    lookup_path (st_heap jobbed) server ["info"; "uri"] = Some uri ∧
    lookup_path (st_heap jobbed) server ["app"; "buildFactory"] = Some buildFactory ∧
    lookup_path (st_heap jobbed) server ["app"; "jobFactory"] = Some jobFactory ∧
    lookup_prop (st_heap jobbed) buildFactory "apiUri" = Some uri ∧
    lookup_prop (st_heap jobbed) jobFactory "apiUri" = Some uri.
Proof.
  apply (wiring_sets_api_uri registered server built jobbed); evaluate.
Defined.

Lemma wiring_installs_both_generators_witness :
  ∃ tokenGen userTokenGen jobExecutor,
    lookup_prop (st_heap jobbed) (VRef 4) "tokenGen" = Some tokenGen ∧
    lookup_prop (st_heap jobbed) (VRef 5) "tokenGen" = Some tokenGen ∧
    closure_at (st_heap jobbed) tokenGen = Some (TokenGenBuild server) ∧
    lookup_prop (st_heap jobbed) (VRef 6) "executor" = Some jobExecutor ∧
    lookup_prop (st_heap jobbed) (VRef 6) "tokenGen" = Some userTokenGen ∧
    lookup_prop (st_heap jobbed) jobExecutor "userTokenGen" = Some userTokenGen ∧
    closure_at (st_heap jobbed) userTokenGen = Some (TokenGenJob server) ∧
    tokenGen ≠ userTokenGen.
Proof.
  apply (wiring_installs_both_generators registered server built jobbed
           (VRef 4) (VRef 5) (VRef 6));
    [evaluate | evaluate | evaluate | evaluate | evaluate | discriminate | discriminate].
Defined.

Lemma token_generators_need_auth_witness :
  tokenGenBuild running server (VStr "b1") metadata (VStr "gh") (VNum 3600) unregistered
  = (Throw VTypeError, unregistered) ∧
  tokenGenJob running server (VStr "alice") metadata (VStr "gh") unregistered
  = (Throw VTypeError, unregistered).
Proof.
  apply (token_generators_need_auth running server unregistered).
  intros auth Hauth.
  assert (lookup_path (st_heap unregistered) server ["plugins"; "auth"]
          = Some VUndefined) as Hnone by evaluate.
  left. exact (f_equal (default VNull) (eq_trans (eq_sym Hauth) Hnone)).
Defined.

Lemma failing_profile_throws tr args h this :
  (failing_profile (tr ++ [Event (Method this "generateProfile") args h])).1
  = Throw (VStr "unknown subject").
Proof. unfold failing_profile. by rewrite last_snoc. Qed.

Lemma token_generators_stop_at_profile_failure_witness :
  (∃ scopes h1 h2,
     array_elems h1 scopes = Some [VStr "temporal"] ∧
     tokenGenBuild failing_profile server (VStr "b1") metadata (VStr "gh") (VNum 3600)
                   jobbed
     = (Throw (VStr "unknown subject"),
        State h2 (st_trace jobbed ++
                  [Event (Method auth "generateProfile")
                         [VStr "b1"; VStr "gh"; scopes; metadata] h1]))) ∧
  (∃ scopes h1 h2,
     array_elems h1 scopes = Some [VStr "user"] ∧
     tokenGenJob failing_profile server (VStr "alice") metadata (VStr "gh") jobbed
     = (Throw (VStr "unknown subject"),
        State h2 (st_trace jobbed ++
                  [Event (Method auth "generateProfile")
                         [VStr "alice"; VStr "gh"; scopes; metadata] h1]))).
Proof.
  apply (token_generators_stop_at_profile_failure failing_profile server auth jobbed
           (VStr "unknown subject")).
  - evaluate.
  - apply not_nullish_ref.
  - intros tr args h. apply failing_profile_throws.
Defined.

Lemma failing_cleanup_rejects tr args h this :
  ∃ r h1,
    failing_cleanup (tr ++ [Event (Method this "cleanUp") args h]) = (Ok r, h1) ∧
    ∀ w, settled h1 r ≠ Fulfilled w.
Proof.
  eexists _, _. unfold failing_cleanup. rewrite last_snoc. split; [done|].
  intros w. unfold settled, promise_state, put. by rewrite lookup_insert_eq.
Qed.

Lemma cleanup_failure_leaves_task_pending_witness :
  ∃ p s',
    cleanupTask failing_cleanup server jobbed = (Ok p, s') ∧
    promise_state (st_heap s') p = Some Pending ∧
    st_trace s'
    = st_trace jobbed ++ [Event (Method (VRef 6) "cleanUp") [] (st_heap jobbed)].
Proof.
  apply (cleanup_failure_leaves_task_pending failing_cleanup server jobbed (VRef 6)).
  - evaluate.
  - apply not_nullish_ref.
  - destruct (failing_cleanup_rejects (st_trace jobbed) [] (st_heap jobbed) (VRef 6))
      as (r & h1 & -> & Hr).
    exact Hr.
Defined.

(** With a logger whose [error] returns the logger, a failed start resolves
    the promise of the bootstrap to that object, not to [undefined]. *)
Lemma logger_object_resolves_bootstrap :
  ∃ p σ' h,
    module_exports returning_logger prettyPrintErrors_fn config start0 = (Ok p, σ') ∧
    last (st_trace σ')
    = Some (Event (Import "screwdriver-logger" "error")
                  [VStr "Failed to start server"; VStr "EADDRINUSE"] h) ∧
    promise_state (st_heap σ') p = Some (Fulfilled (VRef 33)) ∧
    promise_state (st_heap σ') p ≠ Some (Fulfilled VUndefined).
Proof.
  pose (booted := module_exports returning_logger prettyPrintErrors_fn config start0).
  assert (Hp : promise_state (st_heap (state_of booted)) (value_of VUndefined booted)
               = Some (Fulfilled (VRef 33))) by evaluate.
  exists (value_of VUndefined booted), (state_of booted),
         (default ∅ (ev_heap <$> last (st_trace (state_of booted)))).
  split; [evaluate|]. split; [evaluate|]. split; [exact Hp|].
  rewrite Hp. discriminate.
Qed.

(** With one object as build-domain and as job-domain service, the bootstrap
    succeeds, and [buildFactory.tokenGen] is then the job generator: called
    as the build generator is, it asks for the scope ['user'] and passes no
    expiry to [generateToken]. *)
Lemma shared_factory_loses_build_generator :
  promise_state (st_heap (state_of shared_boot)) (value_of VUndefined shared_boot)
  = Some (Fulfilled shared_server) ∧
  lookup_path (st_heap (state_of shared_boot)) shared_server
    ["app"; "buildFactory"; "tokenGen"] = Some shared_generator ∧
  closure_at (st_heap (state_of shared_boot)) shared_generator
  = Some (TokenGenJob shared_server) ∧
  ∃ scopes h1 profile h2,
    st_trace (state_of shared_call)
    = st_trace (state_of shared_boot) ++
      [Event (Method (VRef 23) "generateProfile")
             [VStr "b1"; VStr "gh"; scopes; metadata] h1;
       Event (Method (VRef 23) "generateToken") [profile] h2] ∧
    array_elems h1 scopes = Some [VStr "user"].
Proof.
  split; [evaluate|]. split; [evaluate|]. split; [evaluate|].
  exists (VRef 34),
         (default ∅ (ev_heap <$> st_trace (state_of shared_call) !! 7%nat)),
         (VRef 35),
         (default ∅ (ev_heap <$> st_trace (state_of shared_call) !! 8%nat)).
  split; evaluate.
Qed.

End DeviationFacts.
